(** * hikari.net.gateway: the gateway shard, embedded and checked

    A shallow embedding of [src/hikari/net/gateway.py] (class
    [GatewayConnection]) and the properties its specification states
    about it.

    The Python object becomes a record that every method threads
    explicitly; a method is a function in a small state-and-exception
    monad, so that what a method wrote before it raised is still there
    afterwards, as in Python.  Coroutines are cut at their [await]s: each
    piece runs from one suspension point to the next, and a script of
    events (a frame arrives, the heartbeat wait completes, somebody calls
    [close]) says which coroutine is resumed next.

    zlib, the UTF-8 decoder, the JSON parser and the platform strings are
    libraries outside the repository: they are interfaces here (type
    classes), and the concrete scenarios instantiate them.  Times are
    IEEE doubles, as [time.perf_counter()] returns them.  The URI and
    the debug log lines play no part in the properties and are left
    out. *)

From Stdlib Require Import List String Ascii ZArith Bool Lia Floats QArith Lqa.
From Stdlib Require Import SpecFloat FloatOps FloatAxioms RelationClasses.
From Stdlib Require Import DecimalString.
From Stdlib.Strings Require Import Byte.
Import ListNotations.
(* A decimal literal stands for the nearest double, as in Python. *)
Set Warnings "-inexact-float".
Open Scope string_scope.
Open Scope list_scope.

Set Implicit Arguments.

(* ------------------------------------------------------------------ *)
(** ** Python values *)

(** What [json.loads] can return; a [dict] keeps its keys in order, and
    a lookup takes the first binding of a key.  Python's [None] is
    [JNull]. *)
#[warnings="-register-all"]
Inductive json : Type :=
| JNull
| JBool (b : bool)
| JInt (n : Z)
| JFloat (f : float)
| JStr (s : string)
| JArr (items : list json)
| JObj (fields : list (string * json)).

Fixpoint assoc (k : string) (fields : list (string * json)) : option json :=
  match fields with
  | [] => None
  | (k', v) :: rest => if String.eqb k k' then Some v else assoc k rest
  end.

(** [x is None] *)
Definition is_None (v : json) : bool :=
  match v with JNull => true | _ => false end.

(** [isinstance(v, dict)] *)
Definition is_dict (v : json) : bool :=
  match v with JObj _ => true | _ => false end.

(** [float(n)] for an [int]: the nearest double, ties to even. *)
Definition float_of_Z (n : Z) : float :=
  SF2Prim (binary_normalize prec emax n 0 false).

(** [v == n] for an [int] constant [n]: Python compares numbers across
    [int], [float] and [bool] (where [True == 1]); anything else differs. *)
Definition py_eq_int (v : json) (n : Z) : bool :=
  match v with
  | JInt m => Z.eqb m n
  | JBool b => Z.eqb (if b then 1 else 0) n
  | JFloat f => PrimFloat.eqb f (float_of_Z n)
  | _ => false
  end.

(* ------------------------------------------------------------------ *)
(** ** Bytes *)

Definition bytes := list byte.

Fixpoint startswith (l p : bytes) {struct p} : bool :=
  match p with
  | [] => true
  | x :: p' =>
      match l with
      | [] => false
      | y :: l' => Byte.eqb x y && startswith l' p'
      end
  end.

(** [bytearray.endswith] *)
Definition endswith (l s : bytes) : bool := startswith (rev l) (rev s).

(** The zlib sync-flush marker, [b"\x00\x00\xff\xff"]. *)
Definition SYNC_FLUSH : bytes := [x00; x00; xff; xff].

(* ------------------------------------------------------------------ *)
(** ** Libraries the module calls *)

(** [zlib.decompressobj()] and its [decompress] method: the context is
    changed by every call; [None] stands for [zlib.error]. *)
Class Zlib : Type := {
  zctx : Type;
  decompressobj : zctx;
  decompress : zctx -> bytes -> option bytes * zctx
}.

(** [bytes.decode("utf-8")] and [json.loads]; [None] stands for
    [UnicodeDecodeError] and [json.JSONDecodeError]. *)
Class Codec : Type := {
  decode_utf8 : bytes -> option string;
  json_loads : string -> option json
}.

(** [platform.system()], [_lib_ver()] and [_py_ver()]. *)
Class Platform : Type := {
  platform_system : string;
  _lib_ver : string;
  _py_ver : string
}.

(* ------------------------------------------------------------------ *)
(** ** Exceptions *)

(** The [reason] given to [ws.close] and kept by the two typed
    terminations: a literal, or one of the two formatted messages with
    the value it interpolates. *)
Inductive reason : Type :=
| Literal (s : string)
| ExpectedHello (op : json)   (* f'Expected a "HELLO" opcode but got {op}' *)
| NoAck (last_sent : float).  (* f"Failed to receive an acknowledgement ... ~{last_sent}s ago" *)

Inductive exn : Type :=
| ResumableConnectionClosed (code : Z) (why : reason)
| GatewayRequestedReconnection (code : Z) (why : reason)
| ConnectionClosed (code : Z)   (* what [ws.recv()] raises on a closed socket *)
| KeyError (key : string)
| TypeError
| AttributeError
| OverflowError
| ZlibError
| UnicodeDecodeError
| JSONDecodeError
| SinkError (what : string).    (* whatever the dispatch callback raised *)

Inductive result (A : Type) : Type :=
| Ok (a : A)
| Raise (e : exn).
Arguments Raise {A} e.

(** [d[k]]: only a [dict] can be indexed by a string. *)
Definition subscript (d : json) (k : string) : result json :=
  match d with
  | JObj fields =>
      match assoc k fields with
      | Some v => Ok v
      | None => Raise (KeyError k)
      end
  | _ => Raise TypeError
  end.

(** [d.get(k, None)] on a [dict]. *)
Definition get_or_None (fields : list (string * json)) (k : string) : json :=
  match assoc k fields with
  | Some v => v
  | None => JNull
  end.

(** [v / 1_000.0] *)
Definition div_1000 (v : json) : result float :=
  match v with
  | JInt n =>
      let f := float_of_Z n in
      if PrimFloat.eqb (PrimFloat.abs f) infinity then Raise OverflowError
      else Ok (f / 1000)%float
  | JBool b => Ok ((if b then 1 else 0) / 1000)%float
  | JFloat f => Ok (f / 1000)%float
  | _ => Raise TypeError
  end.

(** [", ".join(v)] succeeds on an iterable of strings. *)
Definition joinable (v : json) : bool :=
  match v with
  | JStr _ => true
  | JObj _ => true
  | JArr items => forallb (fun x => match x with JStr _ => true | _ => false end) items
  | _ => false
  end.

(** [hex(v)] succeeds on an [int] (and so on a [bool]). *)
Definition hexable (v : json) : bool :=
  match v with
  | JInt _ | JBool _ => true
  | _ => false
  end.

(* ------------------------------------------------------------------ *)
(** ** The connection object *)

(** The transport handle: which connection it is and the [close] calls
    made on it, oldest first. *)
Record websocket : Type := {
  ws_id : nat;
  ws_closes : list (Z * reason)
}.

Definition ws_close (code : Z) (why : reason) (w : websocket) : websocket :=
  {| ws_id := ws_id w; ws_closes := ws_closes w ++ [(code, why)] |}.

(** What the logger was given, as far as the properties look at it. *)
Inductive log_record : Type :=
| InfoHello
| InfoIdentify
| InfoResume
| InfoDispatch (t : json)
| WarnReconnectOp
| WarnInvalidSession
| WarnUnknownOpcode (op : json)
| WarnSlowHeartbeat (time_taken : float)
| WarnReconnecting (code : Z) (why : reason).

(** The constructor's arguments. *)
Record config : Type := {
  shard_id : option Z;
  shard_count : option Z;
  token : string;
  incognito : bool;
  large_threshold : Z;
  initial_presence : json;
  (** the sink; [Some what] when it raises *)
  dispatch : json -> json -> option string;
  max_persistent_buffer_size : Z
}.

Record GatewayConnection `{Zlib} : Type := {
  cfg : config;
  _closed_event : bool;
  _heartbeat_interval : float;
  _last_ack_received : float;
  _last_heartbeat_sent : float;
  _seq : json;
  _session_id : json;
  heartbeat_latency : float;
  inflator : zctx;
  in_buffer : bytes;
  trace : json;
  ws : option websocket;
  (** observation only: payloads handed to [_send_json], calls made to
      the sink, log records, inputs given to [inflator.decompress] (all
      oldest first) and the number of sockets opened *)
  submitted : list json;
  dispatched : list (json * json);
  logged : list log_record;
  inflated : list bytes;
  opened : nat
}.

Definition DISPATCH_OP : Z := 0.
Definition HEARTBEAT_OP : Z := 1.
Definition IDENTIFY_OP : Z := 2.
Definition STATUS_UPDATE_OP : Z := 3.
Definition VOICE_STATE_UPDATE_OP : Z := 4.
Definition RESUME_OP : Z := 6.
Definition RECONNECT_OP : Z := 7.
Definition REQUEST_GUILD_MEMBERS_OP : Z := 8.
Definition INVALID_SESSION_OP : Z := 9.
Definition HELLO_OP : Z := 10.
Definition HEARTBEAT_ACK_OP : Z := 11.
Definition GUILD_SYNC_OP : Z := 12.

Definition REDACTED : string := "redacted".
Definition RATELIMIT_TOLERANCE : nat := 119.
Definition RATELIMIT_COOLDOWN : Q := 60.

Section Gateway.
Context `{ZL : Zlib} `{CD : Codec} `{PF : Platform}.

(** [GatewayConnection.__init__] *)
Definition __init__ (c : config) : GatewayConnection :=
  {| cfg := c;
     _closed_event := false;
     _heartbeat_interval := nan;
     _last_ack_received := nan;
     _last_heartbeat_sent := nan;
     _seq := JNull;
     _session_id := JNull;
     heartbeat_latency := nan;
     inflator := decompressobj;
     in_buffer := [];
     trace := JArr [];
     ws := None;
     submitted := [];
     dispatched := [];
     logged := [];
     inflated := [];
     opened := 0 |}.

(** *** Field assignments *)

Definition set__closed_event (v : bool) (g : GatewayConnection) : GatewayConnection :=
  {| cfg := cfg g; _closed_event := v; _heartbeat_interval := _heartbeat_interval g;
     _last_ack_received := _last_ack_received g; _last_heartbeat_sent := _last_heartbeat_sent g;
     _seq := _seq g; _session_id := _session_id g; heartbeat_latency := heartbeat_latency g;
     inflator := inflator g; in_buffer := in_buffer g; trace := trace g; ws := ws g;
     submitted := submitted g; dispatched := dispatched g; logged := logged g;
     inflated := inflated g; opened := opened g |}.

Definition set__heartbeat_interval (v : float) (g : GatewayConnection) : GatewayConnection :=
  {| cfg := cfg g; _closed_event := _closed_event g; _heartbeat_interval := v;
     _last_ack_received := _last_ack_received g; _last_heartbeat_sent := _last_heartbeat_sent g;
     _seq := _seq g; _session_id := _session_id g; heartbeat_latency := heartbeat_latency g;
     inflator := inflator g; in_buffer := in_buffer g; trace := trace g; ws := ws g;
     submitted := submitted g; dispatched := dispatched g; logged := logged g;
     inflated := inflated g; opened := opened g |}.

Definition set__last_ack_received (v : float) (g : GatewayConnection) : GatewayConnection :=
  {| cfg := cfg g; _closed_event := _closed_event g; _heartbeat_interval := _heartbeat_interval g;
     _last_ack_received := v; _last_heartbeat_sent := _last_heartbeat_sent g;
     _seq := _seq g; _session_id := _session_id g; heartbeat_latency := heartbeat_latency g;
     inflator := inflator g; in_buffer := in_buffer g; trace := trace g; ws := ws g;
     submitted := submitted g; dispatched := dispatched g; logged := logged g;
     inflated := inflated g; opened := opened g |}.

Definition set__last_heartbeat_sent (v : float) (g : GatewayConnection) : GatewayConnection :=
  {| cfg := cfg g; _closed_event := _closed_event g; _heartbeat_interval := _heartbeat_interval g;
     _last_ack_received := _last_ack_received g; _last_heartbeat_sent := v;
     _seq := _seq g; _session_id := _session_id g; heartbeat_latency := heartbeat_latency g;
     inflator := inflator g; in_buffer := in_buffer g; trace := trace g; ws := ws g;
     submitted := submitted g; dispatched := dispatched g; logged := logged g;
     inflated := inflated g; opened := opened g |}.

Definition set__seq (v : json) (g : GatewayConnection) : GatewayConnection :=
  {| cfg := cfg g; _closed_event := _closed_event g; _heartbeat_interval := _heartbeat_interval g;
     _last_ack_received := _last_ack_received g; _last_heartbeat_sent := _last_heartbeat_sent g;
     _seq := v; _session_id := _session_id g; heartbeat_latency := heartbeat_latency g;
     inflator := inflator g; in_buffer := in_buffer g; trace := trace g; ws := ws g;
     submitted := submitted g; dispatched := dispatched g; logged := logged g;
     inflated := inflated g; opened := opened g |}.

Definition set__session_id (v : json) (g : GatewayConnection) : GatewayConnection :=
  {| cfg := cfg g; _closed_event := _closed_event g; _heartbeat_interval := _heartbeat_interval g;
     _last_ack_received := _last_ack_received g; _last_heartbeat_sent := _last_heartbeat_sent g;
     _seq := _seq g; _session_id := v; heartbeat_latency := heartbeat_latency g;
     inflator := inflator g; in_buffer := in_buffer g; trace := trace g; ws := ws g;
     submitted := submitted g; dispatched := dispatched g; logged := logged g;
     inflated := inflated g; opened := opened g |}.

Definition set_heartbeat_latency (v : float) (g : GatewayConnection) : GatewayConnection :=
  {| cfg := cfg g; _closed_event := _closed_event g; _heartbeat_interval := _heartbeat_interval g;
     _last_ack_received := _last_ack_received g; _last_heartbeat_sent := _last_heartbeat_sent g;
     _seq := _seq g; _session_id := _session_id g; heartbeat_latency := v;
     inflator := inflator g; in_buffer := in_buffer g; trace := trace g; ws := ws g;
     submitted := submitted g; dispatched := dispatched g; logged := logged g;
     inflated := inflated g; opened := opened g |}.

(** [self.inflator.decompress(data)] changes the context in place; the
    input is also noted in [inflated]. *)
Definition set_inflator (v : zctx) (data : bytes) (g : GatewayConnection) : GatewayConnection :=
  {| cfg := cfg g; _closed_event := _closed_event g; _heartbeat_interval := _heartbeat_interval g;
     _last_ack_received := _last_ack_received g; _last_heartbeat_sent := _last_heartbeat_sent g;
     _seq := _seq g; _session_id := _session_id g; heartbeat_latency := heartbeat_latency g;
     inflator := v; in_buffer := in_buffer g; trace := trace g; ws := ws g;
     submitted := submitted g; dispatched := dispatched g; logged := logged g;
     inflated := inflated g ++ [data]; opened := opened g |}.

Definition set_in_buffer (v : bytes) (g : GatewayConnection) : GatewayConnection :=
  {| cfg := cfg g; _closed_event := _closed_event g; _heartbeat_interval := _heartbeat_interval g;
     _last_ack_received := _last_ack_received g; _last_heartbeat_sent := _last_heartbeat_sent g;
     _seq := _seq g; _session_id := _session_id g; heartbeat_latency := heartbeat_latency g;
     inflator := inflator g; in_buffer := v; trace := trace g; ws := ws g;
     submitted := submitted g; dispatched := dispatched g; logged := logged g;
     inflated := inflated g; opened := opened g |}.

Definition set_trace (v : json) (g : GatewayConnection) : GatewayConnection :=
  {| cfg := cfg g; _closed_event := _closed_event g; _heartbeat_interval := _heartbeat_interval g;
     _last_ack_received := _last_ack_received g; _last_heartbeat_sent := _last_heartbeat_sent g;
     _seq := _seq g; _session_id := _session_id g; heartbeat_latency := heartbeat_latency g;
     inflator := inflator g; in_buffer := in_buffer g; trace := v; ws := ws g;
     submitted := submitted g; dispatched := dispatched g; logged := logged g;
     inflated := inflated g; opened := opened g |}.

Definition set_ws (v : option websocket) (g : GatewayConnection) : GatewayConnection :=
  {| cfg := cfg g; _closed_event := _closed_event g; _heartbeat_interval := _heartbeat_interval g;
     _last_ack_received := _last_ack_received g; _last_heartbeat_sent := _last_heartbeat_sent g;
     _seq := _seq g; _session_id := _session_id g; heartbeat_latency := heartbeat_latency g;
     inflator := inflator g; in_buffer := in_buffer g; trace := trace g; ws := v;
     submitted := submitted g; dispatched := dispatched g; logged := logged g;
     inflated := inflated g; opened := opened g |}.

Definition note_submitted (p : json) (g : GatewayConnection) : GatewayConnection :=
  {| cfg := cfg g; _closed_event := _closed_event g; _heartbeat_interval := _heartbeat_interval g;
     _last_ack_received := _last_ack_received g; _last_heartbeat_sent := _last_heartbeat_sent g;
     _seq := _seq g; _session_id := _session_id g; heartbeat_latency := heartbeat_latency g;
     inflator := inflator g; in_buffer := in_buffer g; trace := trace g; ws := ws g;
     submitted := submitted g ++ [p]; dispatched := dispatched g; logged := logged g;
     inflated := inflated g; opened := opened g |}.

Definition note_dispatched (t d : json) (g : GatewayConnection) : GatewayConnection :=
  {| cfg := cfg g; _closed_event := _closed_event g; _heartbeat_interval := _heartbeat_interval g;
     _last_ack_received := _last_ack_received g; _last_heartbeat_sent := _last_heartbeat_sent g;
     _seq := _seq g; _session_id := _session_id g; heartbeat_latency := heartbeat_latency g;
     inflator := inflator g; in_buffer := in_buffer g; trace := trace g; ws := ws g;
     submitted := submitted g; dispatched := dispatched g ++ [(t, d)]; logged := logged g;
     inflated := inflated g; opened := opened g |}.

Definition note_logged (r : log_record) (g : GatewayConnection) : GatewayConnection :=
  {| cfg := cfg g; _closed_event := _closed_event g; _heartbeat_interval := _heartbeat_interval g;
     _last_ack_received := _last_ack_received g; _last_heartbeat_sent := _last_heartbeat_sent g;
     _seq := _seq g; _session_id := _session_id g; heartbeat_latency := heartbeat_latency g;
     inflator := inflator g; in_buffer := in_buffer g; trace := trace g; ws := ws g;
     submitted := submitted g; dispatched := dispatched g; logged := logged g ++ [r];
     inflated := inflated g; opened := opened g |}.

Definition note_opened (g : GatewayConnection) : GatewayConnection :=
  {| cfg := cfg g; _closed_event := _closed_event g; _heartbeat_interval := _heartbeat_interval g;
     _last_ack_received := _last_ack_received g; _last_heartbeat_sent := _last_heartbeat_sent g;
     _seq := _seq g; _session_id := _session_id g; heartbeat_latency := heartbeat_latency g;
     inflator := inflator g; in_buffer := in_buffer g; trace := trace g; ws := ws g;
     submitted := submitted g; dispatched := dispatched g; logged := logged g;
     inflated := inflated g; opened := S (opened g) |}.

(* ------------------------------------------------------------------ *)
(** ** Methods run in a state-and-exception monad *)

Definition M (A : Type) : Type := GatewayConnection -> result A * GatewayConnection.

Definition ret {A} (a : A) : M A := fun g => (Ok a, g).
Definition raise {A} (e : exn) : M A := fun g => (Raise e, g).
Definition bind {A B} (c : M A) (k : A -> M B) : M B :=
  fun g =>
    match c g with
    | (Ok a, g') => k a g'
    | (Raise e, g') => (Raise e, g')
    end.
Definition self : M GatewayConnection := fun g => (Ok g, g).
Definition assign (f : GatewayConnection -> GatewayConnection) : M unit :=
  fun g => (Ok tt, f g).
Definition lift {A} (r : result A) : M A := fun g => (r, g).

End Gateway.

Notation "x <- c ;; k" := (bind c (fun x => k))
  (at level 61, c at next level, right associativity).
Notation "c ;;; k" := (bind c (fun _ => k))
  (at level 61, right associativity).

(* ------------------------------------------------------------------ *)
(** ** The methods of [GatewayConnection] *)

(** What [ws.recv()] hands back: a text frame ([str]) or a binary one
    ([bytes]). *)
Inductive ws_msg : Type :=
| Text (s : string)
| Binary (b : bytes).

(** The two [await self.ws.recv()] of [_receive_json]: the one that
    opens a message, and the one inside the [while] that collects the
    rest of a compressed message. *)
Inductive recv_point : Type :=
| FirstRecv
| LoopRecv.

(** A coroutine's condition when control comes back to the event loop. *)
Inductive status : Type :=
| Finished
| Suspended.

Section Methods.
Context `{ZL : Zlib} `{CD : Codec} `{PF : Platform}.

(** [await self.ws.close(code=code, reason=reason)] *)
Definition ws_close_call (code : Z) (why : reason) : M unit :=
  g <- self ;;
  match ws g with
  | None => raise AttributeError
  | Some w => assign (set_ws (Some (ws_close code why w)))
  end.

Definition _force_resume {A} (code : Z) (why : reason) : M A :=
  ws_close_call code why ;;;
  raise (ResumableConnectionClosed code why).

Definition _force_reidentify {A} (code : Z) (why : reason) : M A :=
  ws_close_call code why ;;;
  raise (GatewayRequestedReconnection code why).

(** [_send_json] only creates the task that will run [_send_json_now];
    the write itself belongs to the send gate (see [gate_step]). *)
Definition _send_json (payload : json) : M unit :=
  assign (note_submitted payload).

(** [_receive_json], from [json.loads] to its end. *)
Definition _receive_json_parse (msg : string) : M json :=
  match json_loads msg with
  | None => raise JSONDecodeError
  | Some payload =>
      if negb (is_dict payload)
      then _force_reidentify 1007 (Literal "Expected JSON object.")
      else ret payload
  end.

(** [_receive_json], from the test of the [while] on: [None] when the
    coroutine suspends in the loop's [recv] again. *)
Definition _receive_json_loop : M (option json) :=
  g <- self ;;
  if negb (endswith (in_buffer g) SYNC_FLUSH) then ret None
  else
    let (out, ctx) := decompress (inflator g) (in_buffer g) in
    assign (set_inflator ctx (in_buffer g)) ;;;
    match out with
    | None => raise ZlibError
    | Some raw =>
        match decode_utf8 raw with
        | None => raise UnicodeDecodeError
        | Some msg =>
            (* a fresh bytearray or a cleared one: empty either way *)
            (if Z.ltb (max_persistent_buffer_size (cfg g))
                  (Z.of_nat (List.length (in_buffer g)))
             then assign (set_in_buffer [])
             else assign (set_in_buffer [])) ;;;
            payload <- _receive_json_parse msg ;;
            ret (Some payload)
        end
    end.

(** [_receive_json] resumed at [pt] with the frame [msg]. A text frame
    met inside the loop is given to [bytearray.extend], which finds no
    item in an empty [str] and refuses the items of any other. *)
Definition _receive_json (pt : recv_point) (msg : ws_msg) : M (option json) :=
  match msg with
  | Text s =>
      match pt with
      | FirstRecv => payload <- _receive_json_parse s ;; ret (Some payload)
      | LoopRecv =>
          match s with
          | EmptyString => ret None
          | String _ _ => raise TypeError
          end
      end
  | Binary b =>
      assign (fun g => set_in_buffer (in_buffer g ++ b) g) ;;;
      _receive_json_loop
  end.

(** [_hello], after its [_receive_json] has returned [hello]. *)
Definition _hello (hello : json) : M unit :=
  op <- lift (subscript hello "op") ;;
  if negb (py_eq_int op HELLO_OP) then _force_resume 1002 (ExpectedHello op)
  else
    d <- lift (subscript hello "d") ;;
    tr <- lift (subscript d "_trace") ;;
    assign (set_trace tr) ;;;
    hi <- lift (subscript d "heartbeat_interval") ;;
    secs <- lift (div_1000 hi) ;;
    assign (set__heartbeat_interval secs) ;;;
    if joinable tr then assign (note_logged InfoHello) else raise TypeError.

(** [_send_heartbeat]; [sent_at] is its [time.perf_counter()]. *)
Definition _send_heartbeat (sent_at : float) : M unit :=
  g <- self ;;
  _send_json (JObj [("op", JInt HEARTBEAT_OP); ("d", _seq g)]) ;;;
  assign (set__last_heartbeat_sent sent_at).

Definition _send_ack : M unit :=
  _send_json (JObj [("op", JInt HEARTBEAT_ACK_OP)]).

(** [_handle_ack]; [now] is its [time.perf_counter()]. *)
Definition _handle_ack (now : float) : M unit :=
  assign (set__last_ack_received now) ;;;
  g <- self ;;
  assign (set_heartbeat_latency (_last_ack_received g - _last_heartbeat_sent g)%float).

Definition _resume : M unit :=
  g <- self ;;
  _send_json
    (JObj [("op", JInt RESUME_OP);
           ("d", JObj [("token", JStr (token (cfg g)));
                       ("session_id", _session_id g);
                       ("seq", _seq g)])]) ;;;
  assign (note_logged InfoResume).

Definition _identify : M unit :=
  assign (note_logged InfoIdentify) ;;;
  g <- self ;;
  let c := cfg g in
  let shown (v : string) := JStr (if incognito c then REDACTED else v) in
  let d0 :=
    [("token", JStr (token c));
     ("compress", JBool false);
     ("large_threshold", JInt (large_threshold c));
     ("properties", JObj [("$os", shown platform_system);
                          ("$browser", shown _lib_ver);
                          ("$device", shown _py_ver)])] in
  let d1 :=
    if negb (is_None (initial_presence c))
    then d0 ++ [("status", initial_presence c)] else d0 in
  let d2 :=
    match shard_id c, shard_count c with
    | Some i, Some n => d1 ++ [("shard", JArr [JInt i; JInt n])]
    | _, _ => d1
    end in
  _send_json (JObj [("op", JInt IDENTIFY_OP); ("d", JObj d2)]).

(** [self.dispatch(t, d)] *)
Definition call_dispatch (t d : json) : M unit :=
  assign (note_dispatched t d) ;;;
  g <- self ;;
  match dispatch (cfg g) t d with
  | Some what => raise (SinkError what)
  | None => ret tt
  end.

(** [message.get(k, None)] *)
Definition message_get (message : json) (k : string) : json :=
  match message with
  | JObj fields => get_or_None fields k
  | _ => JNull
  end.

(** The [if]/[elif] chain on the opcode in [_process_events]; [now] is
    the clock [_handle_ack] would read. *)
Definition _process_events_branch (now : float) (op d t : json) : M unit :=
  if py_eq_int op DISPATCH_OP then
    assign (note_logged (InfoDispatch t)) ;;;
    call_dispatch t d
  else if py_eq_int op HEARTBEAT_OP then
    _send_ack
  else if py_eq_int op RECONNECT_OP then
    assign (note_logged WarnReconnectOp) ;;;
    _force_reidentify 1003 (Literal "Reconnect opcode was received")
  else if py_eq_int op INVALID_SESSION_OP then
    assign (note_logged WarnInvalidSession) ;;;
    _force_reidentify 1003 (Literal "Session ID invalid")
  else if py_eq_int op HEARTBEAT_ACK_OP then
    _handle_ack now
  else if hexable op then assign (note_logged (WarnUnknownOpcode op))
  else raise TypeError.

(** One turn of the [while True] of [_process_events], after its
    [_receive_json] has returned [message]. *)
Definition _process_events (now : float) (message : json) : M unit :=
  op <- lift (subscript message "op") ;;
  d <- lift (subscript message "d") ;;
  let seq := message_get message "s" in
  let t := message_get message "t" in
  (if negb (is_None seq) then assign (set__seq seq) else ret tt) ;;;
  _process_events_branch now op d t.

(** [_keep_alive] from the top of its loop to the [wait_for]; [now] is
    the clock read if the acknowledgement is found missing. *)
Definition _keep_alive_check (now : float) : M unit :=
  g <- self ;;
  let earliest_ack_allowed := (_last_heartbeat_sent g - _heartbeat_interval g)%float in
  if PrimFloat.ltb (_last_ack_received g) earliest_ack_allowed then
    let last_sent := (now - _last_heartbeat_sent g)%float in
    _force_resume 1008 (NoAck last_sent)
  else ret tt.

(** [_keep_alive] from the completion of [wait_for] to the end of the
    turn. The wait completes normally when the shutdown event is set and
    with [asyncio.TimeoutError] otherwise; [start], [sent_at] and
    [finish] are the three clock readings of the [except] branch. *)
#[warnings="-inexact-float"]
Definition _keep_alive_wake (start sent_at finish : float) : M unit :=
  g <- self ;;
  if _closed_event g then
    ws_close_call 1000 (Literal "User requested shutdown")
  else
    _send_heartbeat sent_at ;;;
    let time_taken := (finish - start)%float in
    g' <- self ;;
    if PrimFloat.ltb (0.15 * heartbeat_latency g')%float time_taken
    then assign (note_logged (WarnSlowHeartbeat time_taken))
    else ret tt.

(** [close]; the closing handshake of an open socket is for the peer to
    finish, so waiting on a socket nobody has closed yet suspends. *)
Definition close (block : bool) : M status :=
  assign (set__closed_event true) ;;;
  if block then
    g <- self ;;
    match ws g with
    | None => raise AttributeError
    | Some w =>
        match ws_closes w with
        | [] => ret Suspended
        | _ :: _ => ret Finished
        end
    end
  else ret Finished.

End Methods.

(* ------------------------------------------------------------------ *)
(** ** The event loop *)

(** What can happen while a connection is open.  Clock readings come
    with the event that makes the code read the clock. *)
Inductive event : Type :=
| Recv (msg : ws_msg) (now : float)
    (** the reader's [ws.recv()] returns [msg] *)
| RecvClosed (code : Z)
    (** the reader's [ws.recv()] raises [websockets.ConnectionClosed] *)
| Wake (start sent_at finish check : float)
    (** the [wait_for] of [_keep_alive] completes; [check] is the clock
        of the turn that follows *)
| Close (block : bool).
    (** somebody calls [close(block)] *)

(** Where the reader is suspended: in the [_receive_json] of [_hello]
    (the heartbeat task does not exist yet), or in that of
    [_process_events]. *)
Inductive phase : Type :=
| InHello (pt : recv_point)
| InEvents (pt : recv_point).

Section Loop.
Context `{ZL : Zlib} `{CD : Codec} `{PF : Platform}.

(** The body of [run]'s [async with] after [_hello]: the branch, then
    [gather] starts [_keep_alive], which runs to its first wait. *)
Definition after_hello (now : float) : M unit :=
  g <- self ;;
  let is_resume := is_None (_seq g) && is_None (_session_id g) in
  (if is_resume then _identify else _resume) ;;;
  _keep_alive_check now.

(** One event, taken by the coroutine it is for.  An exception raised
    by [close] goes to its caller, not to [run]. *)
Definition on_event (ph : phase) (ev : event) : M phase :=
  match ev, ph with
  | Recv msg now, InHello pt =>
      r <- _receive_json pt msg ;;
      match r with
      | None => ret (InHello LoopRecv)
      | Some hello =>
          _hello hello ;;;
          after_hello now ;;;
          ret (InEvents FirstRecv)
      end
  | Recv msg now, InEvents pt =>
      r <- _receive_json pt msg ;;
      match r with
      | None => ret (InEvents LoopRecv)
      | Some message =>
          _process_events now message ;;;
          ret (InEvents FirstRecv)
      end
  | RecvClosed code, _ => raise (ConnectionClosed code)
  | Wake start sent_at finish check, InEvents _ =>
      _keep_alive_wake start sent_at finish ;;;
      _keep_alive_check check ;;;
      ret ph
  | Wake _ _ _ _, InHello _ => ret ph
  | Close block, _ => fun g => (Ok ph, snd (close block g))
  end.

(** The body of the [async with] over the events of one connection:
    it raises, or is still waiting when the events run out. *)
Fixpoint connection (ph : phase) (evs : list event) : M status :=
  match evs with
  | [] => ret Suspended
  | ev :: rest => ph' <- on_event ph ev ;; connection ph' rest
  end.

(** [websockets.connect(...)] bound to [self.ws] *)
Definition connect (g : GatewayConnection) : GatewayConnection :=
  note_opened (set_ws (Some {| ws_id := opened g; ws_closes := [] |}) g).

(** Leaving the [async with]: the context manager closes the socket. *)
Definition leave (g : GatewayConnection) : GatewayConnection :=
  match ws g with
  | Some w => set_ws (Some (ws_close 1000 (Literal "") w)) g
  | None => g
  end.

(** The assignment of the [isinstance(ex, GatewayRequestedReconnection)]
    branch. *)
Definition forget_session (g : GatewayConnection) : GatewayConnection :=
  set_trace JNull (set__session_id JNull (set__seq JNull g)).

(** [run] over the events of the successive connections. *)
Fixpoint run (conns : list (list event)) : M status :=
  match conns with
  | [] => ret Suspended
  | evs :: rest =>
      fun g =>
        match connection (InHello FirstRecv) evs (connect g) with
        | (Ok Suspended, g') => (Ok Suspended, g')
        | (Ok Finished, g') => run rest (leave g')
        | (Raise (GatewayRequestedReconnection code why), g') =>
            run rest (forget_session (note_logged (WarnReconnecting code why) (leave g')))
        | (Raise (ResumableConnectionClosed code why), g') =>
            run rest (note_logged (WarnReconnecting code why) (leave g'))
        | (Raise e, g') => (Raise e, leave g')
        end
  end.

End Loop.

(* ------------------------------------------------------------------ *)
(** ** The send gate: [_send_json_now] under [self.rate_limit] *)

(** Every task made by [_send_json] runs [_send_json_now]: it waits for
    a permit of the [BoundedSemaphore], writes its frame with
    [ws.send], sleeps [RATELIMIT_COOLDOWN] seconds and only then leaves
    the [async with], which gives the permit back.  The clock is the
    event loop's, in seconds. *)
Record gate : Type := {
  gate_now : Q;
  (** [rate_limit._value]: the permits left *)
  gate_value : nat;
  (** tasks waiting to enter the [async with], oldest first *)
  gate_queued : list json;
  (** tasks holding a permit inside [await self.ws.send(raw)] *)
  gate_sending : list json;
  (** tasks holding a permit inside [asyncio.sleep]: when each sleep ends *)
  gate_cooling : list Q;
  (** the frames written to the transport with their times, newest first *)
  gate_wire : list (Q * json)
}.

Inductive gate_action : Type :=
| Submit (payload : json)   (** [_send_json] creates a task *)
| Acquire                   (** the oldest waiting task gets a permit *)
| Written (i : nat)         (** the [ws.send] of the [i]-th sender completes *)
| SendFailed (i : nat)      (** the [ws.send] of the [i]-th sender raises *)
| Release (i : nat)         (** the [i]-th sleeper wakes and leaves the [async with] *)
| Tick (t : Q).             (** the clock reaches [t] *)

Fixpoint remove_at {A} (i : nat) (l : list A) : list A :=
  match l, i with
  | [], _ => []
  | _ :: l', O => l'
  | x :: l', S i' => x :: remove_at i' l'
  end.

Definition gate_init : gate :=
  {| gate_now := 0; gate_value := RATELIMIT_TOLERANCE; gate_queued := [];
     gate_sending := []; gate_cooling := []; gate_wire := [] |}.

(** One step of the gate; [None] when the action cannot happen in this
    state (no permit left, nobody waiting, a sleep that is not over, a
    clock going backwards). *)
Definition gate_step (s : gate) (a : gate_action) : option gate :=
  match a with
  | Submit p =>
      Some {| gate_now := gate_now s; gate_value := gate_value s;
              gate_queued := gate_queued s ++ [p]; gate_sending := gate_sending s;
              gate_cooling := gate_cooling s; gate_wire := gate_wire s |}
  | Acquire =>
      match gate_value s, gate_queued s with
      | S v, p :: q =>
          Some {| gate_now := gate_now s; gate_value := v;
                  gate_queued := q; gate_sending := gate_sending s ++ [p];
                  gate_cooling := gate_cooling s; gate_wire := gate_wire s |}
      | _, _ => None
      end
  | Written i =>
      match nth_error (gate_sending s) i with
      | Some p =>
          Some {| gate_now := gate_now s; gate_value := gate_value s;
                  gate_queued := gate_queued s;
                  gate_sending := remove_at i (gate_sending s);
                  gate_cooling := (gate_now s + RATELIMIT_COOLDOWN)%Q :: gate_cooling s;
                  gate_wire := (gate_now s, p) :: gate_wire s |}
      | None => None
      end
  | SendFailed i =>
      match nth_error (gate_sending s) i with
      | Some _ =>
          Some {| gate_now := gate_now s; gate_value := S (gate_value s);
                  gate_queued := gate_queued s;
                  gate_sending := remove_at i (gate_sending s);
                  gate_cooling := gate_cooling s; gate_wire := gate_wire s |}
      | None => None
      end
  | Release i =>
      match nth_error (gate_cooling s) i with
      | Some until =>
          if Qle_bool until (gate_now s) then
            Some {| gate_now := gate_now s; gate_value := S (gate_value s);
                    gate_queued := gate_queued s; gate_sending := gate_sending s;
                    gate_cooling := remove_at i (gate_cooling s);
                    gate_wire := gate_wire s |}
          else None
      | None => None
      end
  | Tick t =>
      if Qle_bool (gate_now s) t then
        Some {| gate_now := t; gate_value := gate_value s;
                gate_queued := gate_queued s; gate_sending := gate_sending s;
                gate_cooling := gate_cooling s; gate_wire := gate_wire s |}
      else None
  end.

Fixpoint gate_run (s : gate) (acts : list gate_action) : option gate :=
  match acts with
  | [] => Some s
  | a :: rest =>
      match gate_step s a with
      | Some s' => gate_run s' rest
      | None => None
      end
  end.

(** [t <= w < t + 60] *)
Definition in_window (t w : Q) : bool :=
  Qle_bool t w && negb (Qle_bool (t + RATELIMIT_COOLDOWN) w).

(** The frames written during the 60 seconds that start at [t]. *)
Definition frames_in_window (t : Q) (s : gate) : nat :=
  List.length (filter (fun e => in_window t (fst e)) (gate_wire s)).

(** [now < until]: a sleep that is not over. *)
Definition asleep (now until : Q) : bool := negb (Qle_bool until now).

(* ------------------------------------------------------------------ *)
(** ** Stand-ins for the concrete scenarios *)

(** A zlib that stores: the context is the list of the inputs it has
    been given, and the output is the input without its sync-flush
    marker. *)
Definition stored_zlib : Zlib :=
  {| zctx := list bytes;
     decompressobj := [];
     decompress := fun ctx data =>
       (Some (firstn (List.length data - 4) data), ctx ++ [data]) |}.

Definition hello_frame : json :=
  JObj [("op", JInt 10);
        ("d", JObj [("heartbeat_interval", JInt 41250);
                    ("_trace", JArr [JStr "edge-1"])])].

Definition ready_frame : json :=
  JObj [("op", JInt 0); ("t", JStr "READY"); ("s", JInt 1);
        ("d", JObj [("session_id", JStr "abc")])].

Definition ack_frame : json := JObj [("op", JInt 11); ("d", JNull)].

Definition reconnect_frame : json := JObj [("op", JInt 7); ("d", JNull)].

Definition event5_frame : json :=
  JObj [("op", JInt 0); ("t", JStr "MESSAGE_CREATE"); ("s", JInt 5); ("d", JObj [])].

Definition event3_frame : json :=
  JObj [("op", JInt 0); ("t", JStr "MESSAGE_CREATE"); ("s", JInt 3); ("d", JObj [])].

Definition bare_frame : json := JObj [("op", JInt 0)].

(** The texts on the wire are named rather than spelled out: the JSON
    parser of the scenarios knows these documents by name. *)
Definition documents : list (string * json) :=
  [("hello", hello_frame); ("ready", ready_frame); ("ack", ack_frame);
   ("reconnect", reconnect_frame); ("event5", event5_frame);
   ("event3", event3_frame); ("bare", bare_frame); ("array", JArr [])].

Definition named_codec : Codec :=
  {| decode_utf8 := fun b => Some (string_of_list_byte b);
     json_loads := fun s => assoc s documents |}.

Definition some_platform : Platform :=
  {| platform_system := "Linux"; _lib_ver := "hikari v0"; _py_ver := "CPython 3.7" |}.

(** A shard with the default arguments and a sink that accepts
    everything, and the same with a sink that always raises. *)
Definition quiet_config : config :=
  {| shard_id := None; shard_count := None; token := "T"; incognito := false;
     large_threshold := 50; initial_presence := JNull;
     dispatch := fun _ _ => None;
     max_persistent_buffer_size := (3 * 1024 * 1024)%Z |}.

Definition failing_config : config :=
  {| shard_id := None; shard_count := None; token := "T"; incognito := false;
     large_threshold := 50; initial_presence := JNull;
     dispatch := fun _ _ => Some "boom";
     max_persistent_buffer_size := (3 * 1024 * 1024)%Z |}.

(** The compressed form of the document named [name] for [stored_zlib]. *)
Definition stored (name : string) : bytes :=
  list_byte_of_string name ++ SYNC_FLUSH.

(** *** Scripts *)

Definition text (name : string) (now : float) : event := Recv (Text name) now.

(** Scenario 1 of the specification: HELLO, then READY with sequence 1. *)
Definition happy_path : list (list event) :=
  [[text "hello" 0; text "ready" 1]].

(** The happy path, then two heartbeats 41.3 s apart with one
    acknowledgement in between: the check that follows the second
    heartbeat finds the acknowledgement older than one interval and asks
    for a resume; the second connection gets its HELLO. *)
Definition resume_after_ready : list (list event) :=
  [[text "hello" 0; text "ready" 1;
    Wake 41.25 41.25 41.25 41.25; text "ack" 41.3;
    Wake 82.6 82.6 82.6 82.6];
   [text "hello" 90]].


(** HELLO, then a heartbeat whose send takes ten seconds. *)
Definition slow_first_heartbeat : list (list event) :=
  [[text "hello" 0; Wake 41.25 46.25 51.25 51.25]].

(** HELLO, a heartbeat acknowledged after 50 ms, then a heartbeat whose
    send takes 10 ms. *)
Definition quick_second_heartbeat : list (list event) :=
  [[text "hello" 0; Wake 41.25 41.25 41.25 41.25; text "ack" 41.3;
    Wake 82.5 82.5 82.51 82.51]].


(** A compressed HELLO, an acknowledgement, the first byte of a
    compressed message, and a heartbeat that finds the acknowledgement
    too old: the connection ends with a message half received.  The
    second connection has just been opened. *)
Definition cut_mid_message : list (list event) :=
  [[Recv (Binary (stored "hello")) 0; text "ack" 1;
    Recv (Binary [x01]) 2; Wake 50 50 50 50];
   []].

(** One event in three binary frames, only the last of which ends the
    accumulated bytes with the marker. *)
Definition three_frames : list event :=
  [Recv (Binary (list_byte_of_string "re")) 1;
   Recv (Binary (list_byte_of_string "ady" ++ [x00; x00])) 1;
   Recv (Binary [xff; xff]) 1].

(* ------------------------------------------------------------------ *)
(** ** Predicates of the properties *)

(** [c] takes every state to a state that [R] relates to it, whether
    [c] returns or raises. *)
Definition keeps `{Zlib} (R : GatewayConnection -> GatewayConnection -> Prop)
    {A} (c : M A) : Prop :=
  forall g, R g (snd (c g)).

(** Relations between the state before and the state after. *)
Definition same_session `{Zlib} (g g' : GatewayConnection) : Prop :=
  _session_id g' = _session_id g.

Definition seq_known `{Zlib} (g g' : GatewayConnection) : Prop :=
  is_None (_seq g) = false -> is_None (_seq g') = false.

Definition same_seq `{Zlib} (g g' : GatewayConnection) : Prop := _seq g' = _seq g.

Definition same_submitted `{Zlib} (g g' : GatewayConnection) : Prop :=
  submitted g' = submitted g.

Definition same_inflated `{Zlib} (g g' : GatewayConnection) : Prop :=
  inflated g' = inflated g.

(** The inflate context that [decompressobj] becomes after inflating
    the inputs of [log] in turn. *)
Definition replay `{Zlib} (log : list bytes) : zctx :=
  fold_left (fun ctx data => snd (decompress ctx data)) log decompressobj.

(** The context of [g] is the constructor's, advanced by everything
    inflated so far. *)
Definition inflator_in_step `{Zlib} (g : GatewayConnection) : Prop :=
  inflator g = replay (inflated g).

Definition inflator_kept `{Zlib} (g g' : GatewayConnection) : Prop :=
  inflator_in_step g -> inflator_in_step g'.


(** The accumulated bytes end in [00 00 FF FF]. *)
Definition ends_in_marker (buf : bytes) : Prop :=
  exists pre, buf = pre ++ SYNC_FLUSH.

(** The frames of [frames] arriving one after the other as binary
    frames. *)
Definition binary_events (now : float) (frames : list bytes) : list event :=
  map (fun b => Recv (Binary b) now) frames.

(** Every permit is either free, or held by a task that is sending or
    sleeping; the sleeps that are not over are exactly those of the
    frames written less than [RATELIMIT_COOLDOWN] seconds ago. *)
Definition gate_ok (s : gate) : Prop :=
  (gate_value s + List.length (gate_sending s) + List.length (gate_cooling s)
     = RATELIMIT_TOLERANCE)%nat /\
  filter (asleep (gate_now s)) (gate_cooling s) =
    filter (asleep (gate_now s))
      (map (fun e => (fst e + RATELIMIT_COOLDOWN)%Q) (gate_wire s)).

(** Two frames written half a second apart, the first permit returned
    after a minute. *)
Definition two_sends : list gate_action :=
  [Submit ack_frame; Submit ack_frame; Acquire; Acquire; Written 0;
   Tick (1 # 2); Written 0; Tick 60; Release 1].

(** The gate after [two_sends]: one permit is still held, by the task
    that wrote the second frame. *)
Definition after_two_sends : gate :=
  {| gate_now := 60; gate_value := 118; gate_queued := [];
     gate_sending := []; gate_cooling := [((1 # 2) + 60)%Q];
     gate_wire := [((1 # 2)%Q, ack_frame); (0%Q, ack_frame)] |}.

(* ------------------------------------------------------------------ *)
(** ** The gateway URI *)





(* ------------------------------------------------------------------ *)
(** ** Further predicates *)

(** Every exception that [c] can raise satisfies [P]. *)
Definition raises_only `{Zlib} (P : exn -> Prop) {A} (c : M A) : Prop :=
  forall g e, fst (c g) = Raise e -> P e.

(** The close codes of the two typed terminations: 1002 and 1008 ask
    for a resume, 1003 and 1007 for a new session. *)
Definition termination_code_ok (e : exn) : Prop :=
  match e with
  | ResumableConnectionClosed code _ => code = 1002%Z \/ code = 1008%Z
  | GatewayRequestedReconnection code _ => code = 1003%Z \/ code = 1007%Z
  | _ => True
  end.

(** The sink call that a frame asks for: its [(t, d)] when it is a
    DISPATCH with a payload. *)
Definition dispatch_call (message : json) : option (json * json) :=
  match subscript message "op", subscript message "d" with
  | Ok op, Ok d =>
      if py_eq_int op DISPATCH_OP then Some (message_get message "t", d) else None
  | _, _ => None
  end.

(** The HEARTBEAT frame that carries the sequence [seq]. *)
Definition heartbeat_frame (seq : json) : json :=
  JObj [("op", JInt HEARTBEAT_OP); ("d", seq)].

(** The shutdown event, once set, is still set. *)
Definition still_closed `{Zlib} (g g' : GatewayConnection) : Prop :=
  _closed_event g = true -> _closed_event g' = true.

(** The shutdown event is as it was. *)
Definition same_closed `{Zlib} (g g' : GatewayConnection) : Prop :=
  _closed_event g' = _closed_event g.

(** The events that are a call of [close]. *)
Definition is_close (ev : event) : bool :=
  match ev with
  | Close _ => true
  | _ => false
  end.

(** What [run] keeps from one connection to the next. *)
Definition same_session_state `{Zlib} (g g' : GatewayConnection) : Prop :=
  _seq g' = _seq g /\ _session_id g' = _session_id g /\ trace g' = trace g.

(** Neither the buffer nor the inflate context has been touched. *)
Definition same_decoder `{Zlib} (g g' : GatewayConnection) : Prop :=
  in_buffer g' = in_buffer g /\ inflator g' = inflator g /\ inflated g' = inflated g.




(* ================================================================== *)
(** * Properties *)

(** ** Runs of the concrete scenarios *)

Section Scenarios.
#[local] Existing Instance stored_zlib.
#[local] Existing Instance named_codec.
#[local] Existing Instance some_platform.

(** C1. The specification has the READY dispatch record the payload's
    [session_id]; the code has no such assignment.  On the happy path
    the sink is called with [("READY", {session_id: "abc"})] and the last
    sequence becomes 1, but the stored session id is still [None]. *)
Theorem C1_ready_leaves_session_id_unset :
  let g := snd (run happy_path (__init__ quiet_config)) in
  dispatched g = [(JStr "READY", JObj [("session_id", JStr "abc")])] /\
  _seq g = JInt 1 /\
  _session_id g = JNull.
Proof. vm_compute. repeat split; reflexivity. Qed.

(** C2. The specification sends RESUME only when both the session id and
    the last sequence are known.  After a resume-requested termination
    that follows the happy path the stored pair is [(None, 1)]; on the
    next HELLO the code sends RESUME, with a null session id, and no
    second IDENTIFY. *)
Theorem C2_resume_sent_with_null_session_id :
  let g := snd (run resume_after_ready (__init__ quiet_config)) in
  _session_id g = JNull /\
  nth_error (submitted g) 3 =
    Some (JObj [("op", JInt RESUME_OP);
                ("d", JObj [("token", JStr "T"); ("session_id", JNull);
                            ("seq", JInt 1)])]) /\
  List.length (filter (fun p => py_eq_int (message_get p "op") IDENTIFY_OP) (submitted g)) = 1%nat.
Proof. vm_compute. repeat split; reflexivity. Qed.

(** C3, as stated, fails: with a sink that raises, the READY dispatch
    ends [run] with the sink's exception. *)
Lemma C3_sink_error_ends_run :
  fst (run happy_path (__init__ failing_config)) = Raise (SinkError "boom").
Proof. vm_compute. reflexivity. Qed.


(** C7. The warning is decided against [heartbeat_latency], not against
    the heartbeat interval (41.25 s here, so 15% is about 6.19 s): a send
    that takes ten seconds before any acknowledgement goes unreported,
    and a send that takes ten milliseconds is reported once the latency
    is 50 ms. *)
Theorem C7_warning_measured_against_latency :
  let slow := snd (run slow_first_heartbeat (__init__ quiet_config)) in
  let quick := snd (run quick_second_heartbeat (__init__ quiet_config)) in
  _heartbeat_interval slow = 41.25%float /\
  logged slow = [InfoHello; InfoIdentify] /\
  _heartbeat_interval quick = 41.25%float /\
  exists time_taken,
    logged quick = [InfoHello; InfoIdentify; WarnSlowHeartbeat time_taken] /\
    PrimFloat.ltb time_taken 0.011 = true.
Proof.
  vm_compute. repeat split; try reflexivity.
  eexists. split; reflexivity.
Qed.


(** C9, as stated, fails: when the second connection has just been
    opened, the inflate context is the one that inflated the first
    connection's HELLO and the buffer still holds the byte received
    before the first connection ended. *)
Lemma C9_decoder_state_survives_reconnect :
  let g := snd (run cut_mid_message (__init__ quiet_config)) in
  opened g = 2%nat /\
  inflator g <> decompressobj /\
  in_buffer g = [x01].
Proof. vm_compute. repeat split; try reflexivity. discriminate. Qed.

End Scenarios.

(* ------------------------------------------------------------------ *)
(** ** What the methods leave alone *)

Section Keeps.
Context `{ZL : Zlib}.
Context (R : GatewayConnection -> GatewayConnection -> Prop) `{!PreOrder R}.

Lemma keeps_ret {A} (a : A) : keeps R (ret a).
Proof. intro g. reflexivity. Qed.

Lemma keeps_raise {A} (e : exn) : keeps R (@raise _ A e).
Proof. intro g. reflexivity. Qed.

Lemma keeps_self : keeps R self.
Proof. intro g. reflexivity. Qed.

Lemma keeps_lift {A} (r : result A) : keeps R (lift r).
Proof. intro g. reflexivity. Qed.

Lemma keeps_assign f : (forall g, R g (f g)) -> keeps R (assign f).
Proof. intros H g. apply H. Qed.

Lemma keeps_bind_at {A B} (c : M A) (k : A -> M B) g :
  R g (snd (c g)) -> (forall a, keeps R (k a)) -> R g (snd (bind c k g)).
Proof.
  intros Hc Hk. unfold bind.
  destruct (c g) as [[a|e] g']; cbn in *; [|exact Hc].
  etransitivity; [exact Hc|apply Hk].
Qed.

Lemma keeps_bind {A B} (c : M A) (k : A -> M B) :
  keeps R c -> (forall a, keeps R (k a)) -> keeps R (bind c k).
Proof. intros Hc Hk g. apply keeps_bind_at; [apply Hc|exact Hk]. Qed.

Lemma keeps_aside {A B} (c : M A) (b : B) :
  keeps R c -> keeps R (fun g => (Ok b, snd (c g))).
Proof. intros Hc g. apply Hc. Qed.

End Keeps.

Ltac head_of t :=
  lazymatch t with
  | ?f _ => head_of f
  | _ => t
  end.

(** One step towards [keeps R c], following the shape of [c]; [leaf]
    proves [R g (f g)] for an assignment [f]. *)
Ltac keeps_step leaf :=
  lazymatch goal with
  | |- keeps _ (ret _) => refine (@keeps_ret _ _ _ _ _)
  | |- keeps _ (raise _) => refine (@keeps_raise _ _ _ _ _)
  | |- keeps _ self => refine (@keeps_self _ _ _)
  | |- keeps _ (lift _) => refine (@keeps_lift _ _ _ _ _)
  | |- keeps _ (bind _ _) => refine (@keeps_bind _ _ _ _ _ _ _ _ _); [ | intros ]
  | |- keeps _ (assign _) => refine (@keeps_assign _ _ _ _); intro; leaf
  | |- keeps _ (fun g => (Ok ?b, snd (?c g))) => refine (@keeps_aside _ _ _ _ c b _)
  | |- keeps _ (match ?x with _ => _ end) => destruct x eqn:?
  | |- keeps _ ?c => let h := head_of c in progress unfold h
  end.

Ltac keeps_all leaf := repeat first [ assumption | keeps_step leaf ].

Section General.
Context `{ZL : Zlib} `{CD : Codec} `{PF : Platform}.

(** *** The session id *)

#[local] Instance same_session_preorder : PreOrder same_session.
Proof.
  split; unfold same_session; [intro; reflexivity|intros a b c H1 H2; congruence].
Qed.

Lemma on_event_same_session ph ev : keeps same_session (on_event ph ev).
Proof.
  unfold on_event.
  destruct ev, ph; keeps_all ltac:(idtac; unfold same_session; reflexivity).
Qed.

Lemma connection_same_session evs : forall ph, keeps same_session (connection ph evs).
Proof.
  induction evs as [|ev rest IH]; intro ph; cbn [connection].
  - apply keeps_ret. exact _.
  - apply keeps_bind; [exact _|apply on_event_same_session|intro ph'; apply IH].
Qed.

(** No path of [run] gives [_session_id] a value: it is [None] after the
    constructor and [None] ever after. *)
Lemma run_session_id_unset conns :
  forall g, _session_id g = JNull -> _session_id (snd (run conns g)) = JNull.
Proof.
  induction conns as [|evs rest IH]; intros g Hg; cbn [run]; [exact Hg|].
  pose proof (connection_same_session evs (InHello FirstRecv) (connect g)) as Hc.
  unfold same_session in Hc. cbn in Hc.
  destruct (connection (InHello FirstRecv) evs (connect g)) as [[[]|e] g'];
    cbn [snd] in *.
  - apply IH. unfold leave. destruct (ws g'); cbn; congruence.
  - congruence.
  - destruct e; cbn [snd];
      try (unfold leave; destruct (ws g'); cbn; congruence);
      apply IH; reflexivity || (unfold leave; destruct (ws g'); cbn; congruence).
Qed.

(** *** The last sequence *)

#[local] Instance seq_known_preorder : PreOrder seq_known.
Proof. split; unfold seq_known; [intros a H; exact H|intros a b c H1 H2 H; auto]. Qed.



End General.

(* ------------------------------------------------------------------ *)
(** ** The protocol state machine *)

Section Protocol.
Context `{ZL : Zlib} `{CD : Codec} `{PF : Platform}.

Lemma bind_lift_Ok {A B} (a : A) (k : A -> M B) : bind (lift (Ok a)) k = k a.
Proof. reflexivity. Qed.

Lemma bind_assign {B} f (k : unit -> M B) g : bind (assign f) k g = k tt (f g).
Proof. reflexivity. Qed.

Lemma bind_ret {A B} (a : A) (k : A -> M B) : bind (ret a) k = k a.
Proof. reflexivity. Qed.

Lemma bind_self {B} (k : GatewayConnection -> M B) g : bind self k g = k g g.
Proof. reflexivity. Qed.

#[local] Instance same_seq_preorder : PreOrder same_seq.
Proof.
  split; unfold same_seq; [intro; reflexivity|intros a b c H1 H2; congruence].
Qed.

(** The opcode branch never writes the last sequence. *)
Lemma branch_same_seq now op d t : keeps same_seq (_process_events_branch now op d t).
Proof. keeps_all ltac:(idtac; unfold same_seq; reflexivity). Qed.

(** What [_process_events] does to the last sequence: a frame that
    carries a non-null ["s"] overwrites it, any other frame leaves it. *)
Lemma _process_events_seq now message op d g :
  subscript message "op" = Ok op ->
  subscript message "d" = Ok d ->
  _seq (snd (_process_events now message g)) =
    if is_None (message_get message "s") then _seq g else message_get message "s".
Proof.
  intros Hop Hd. unfold _process_events.
  rewrite Hop, bind_lift_Ok, Hd, bind_lift_Ok.
  destruct (is_None (message_get message "s")); cbn [negb].
  - rewrite bind_ret. apply branch_same_seq.
  - rewrite bind_assign. rewrite (branch_same_seq now op d _ _). reflexivity.
Qed.

#[local] Instance same_submitted_preorder : PreOrder same_submitted.
Proof.
  split; unfold same_submitted; [intro; reflexivity|intros a b c H1 H2; congruence].
Qed.



(** C3, amended.  When the sink raises on a DISPATCH frame nothing
    catches the exception: [_process_events] ends with it, having
    already stored the frame's sequence and recorded the call, and with
    the session id untouched; the connection that receives such a frame
    ends with it; and [run], which only handles the two typed
    terminations, ends with it too and does not reconnect. *)
Theorem C3_sink_error_leaves_run
  (g : GatewayConnection) (now : float) (message op d : json) (what : string) :
  subscript message "op" = Ok op ->
  py_eq_int op DISPATCH_OP = true ->
  subscript message "d" = Ok d ->
  dispatch (cfg g) (message_get message "t") d = Some what ->
  let r := _process_events now message g in
  (fst r = Raise (SinkError what) /\
   _seq (snd r) =
     (if is_None (message_get message "s") then _seq g else message_get message "s") /\
   _session_id (snd r) = _session_id g /\
   dispatched (snd r) = dispatched g ++ [(message_get message "t", d)]) /\
  (forall s rest,
     json_loads s = Some message ->
     fst (connection (InEvents FirstRecv) (Recv (Text s) now :: rest) g) =
       Raise (SinkError what)) /\
  (forall evs later g0 g1,
     connection (InHello FirstRecv) evs (connect g0) = (Raise (SinkError what), g1) ->
     run (evs :: later) g0 = (Raise (SinkError what), leave g1)).
Proof.
  intros Hop Hzero Hd Hsink r.
  assert (Hr : fst r = Raise (SinkError what) /\
               _session_id (snd r) = _session_id g /\
               dispatched (snd r) = dispatched g ++ [(message_get message "t", d)]).
  { subst r. unfold _process_events.
    rewrite Hop, bind_lift_Ok, Hd, bind_lift_Ok.
    unfold _process_events_branch. rewrite Hzero.
    unfold call_dispatch.
    destruct (is_None (message_get message "s")); cbn [negb];
      unfold bind, assign, ret, self, raise; cbn; rewrite Hsink; cbn; auto. }
  destruct Hr as (Hraise & Hsession & Hcalls).
  repeat split; auto.
  - apply _process_events_seq with (op := op) (d := d); assumption.
  - intros s rest Hs. cbn [connection on_event].
    unfold _receive_json, _receive_json_parse. rewrite Hs.
    assert (Hdict : is_dict message = true).
    { destruct message; cbn in Hop; try discriminate. reflexivity. }
    rewrite Hdict. cbn [negb]. rewrite !bind_ret.
    fold r in Hraise. unfold bind at 1. unfold bind at 1.
    destruct (_process_events now message g) as [[u|e] g'] eqn:E; subst r;
      cbn in Hraise; [discriminate|]. cbn. congruence.
  - intros evs later g0 g1 Hconn. cbn [run]. rewrite Hconn. reflexivity.
Qed.



End Protocol.

Lemma C3_sink_error_leaves_run_witness :
  fst (@_process_events stored_zlib 1 ready_frame (connect (__init__ failing_config))) =
    Raise (SinkError "boom").
Proof.
  exact (proj1 (proj1
    (@C3_sink_error_leaves_run stored_zlib named_codec some_platform
       (connect (__init__ failing_config)) 1 ready_frame
       (JInt 0) (JObj [("session_id", JStr "abc")]) "boom"
       eq_refl eq_refl eq_refl eq_refl))).
Defined.



(* ------------------------------------------------------------------ *)
(** ** The connection supervisor *)

Section Supervisor.
Context `{ZL : Zlib} `{CD : Codec} `{PF : Platform}.

#[local] Instance inflator_kept_preorder : PreOrder inflator_kept.
Proof. split; unfold inflator_kept; [intros a H; exact H|intros a b c H1 H2 H; auto]. Qed.

Ltac field_untouched :=
  idtac; unfold inflator_kept, inflator_in_step; cbn; intros; assumption.

Lemma _receive_json_loop_inflator : keeps inflator_kept _receive_json_loop.
Proof.
  intro g. unfold _receive_json_loop. rewrite bind_self.
  destruct (negb (endswith (in_buffer g) SYNC_FLUSH)); [reflexivity|].
  destruct (decompress (inflator g) (in_buffer g)) as [out ctx] eqn:E.
  apply keeps_bind_at; [exact _| |].
  - unfold inflator_kept, inflator_in_step, assign. cbn. intro Hg.
    unfold replay. rewrite fold_left_app. cbn. fold (replay (inflated g)).
    rewrite <- Hg, E. reflexivity.
  - intros _. keeps_all field_untouched.
Qed.

Lemma on_event_inflator ph ev : keeps inflator_kept (on_event ph ev).
Proof.
  pose proof _receive_json_loop_inflator.
  unfold on_event.
  destruct ev, ph; keeps_all field_untouched.
Qed.

Lemma connection_inflator evs : forall ph, keeps inflator_kept (connection ph evs).
Proof.
  induction evs as [|ev rest IH]; intro ph; cbn [connection].
  - apply keeps_ret. exact _.
  - apply keeps_bind; [exact _|apply on_event_inflator|intro ph'; apply IH].
Qed.

Lemma leave_inflator g : inflator_in_step g -> inflator_in_step (leave g).
Proof. unfold leave, inflator_in_step. destruct (ws g); cbn; auto. Qed.

Lemma run_inflator conns :
  forall g, inflator_in_step g -> inflator_in_step (snd (run conns g)).
Proof.
  induction conns as [|evs rest IH]; intros g Hg; cbn [run]; [exact Hg|].
  assert (Hc : inflator_in_step (connect g)) by exact Hg.
  apply (connection_inflator evs (InHello FirstRecv)) in Hc.
  destruct (connection (InHello FirstRecv) evs (connect g)) as [[[]|e] g'];
    cbn [snd] in *.
  - apply IH, leave_inflator, Hc.
  - exact Hc.
  - apply leave_inflator in Hc.
    destruct e; cbn [snd]; try exact Hc; apply IH; exact Hc.
Qed.



(** C9, amended.  The decoder state is made once, by the constructor:
    the first connection starts with a new inflate context and an empty
    buffer.  Opening a socket, leaving it and handling a termination
    change neither the context nor the buffer; at every point of [run]
    the context is the constructor's, advanced by everything inflated
    since, on whichever connection. *)
Theorem C9_decoder_state_made_once :
  (forall c,
     inflator (connect (__init__ c)) = decompressobj /\
     in_buffer (connect (__init__ c)) = []) /\
  (forall g code why,
     let g' := forget_session (note_logged (WarnReconnecting code why) (leave (connect g))) in
     inflator g' = inflator g /\ in_buffer g' = in_buffer g) /\
  (forall conns c,
     let g := snd (run conns (__init__ c)) in
     inflator g = replay (inflated g)).
Proof.
  split; [|split].
  - intro c. split; reflexivity.
  - intros g code why g'. subst g'. split; reflexivity.
  - intros conns c g. subst g. apply run_inflator. reflexivity.
Qed.

End Supervisor.


(* ------------------------------------------------------------------ *)
(** ** The decoder *)

Lemma startswith_spec p : forall l,
  startswith l p = true <-> exists rest, l = p ++ rest.
Proof.
  induction p as [|x p IH]; intro l; cbn.
  - split; [intros _; exists l; reflexivity|reflexivity].
  - destruct l as [|y l].
    + split; [discriminate|intros [rest H]; discriminate].
    + rewrite andb_true_iff, IH. split.
      * intros [Hxy [rest ->]]. exists rest.
        apply Byte.byte_dec_bl in Hxy. subst y. reflexivity.
      * intros [rest H]. injection H as -> ->.
        split; [apply Byte.byte_dec_lb; reflexivity|exists rest; reflexivity].
Qed.

(** [endswith] is the test its name says. *)
Lemma endswith_spec l s : endswith l s = true <-> exists pre, l = pre ++ s.
Proof.
  unfold endswith. rewrite startswith_spec. split.
  - intros [rest H]. exists (rev rest).
    rewrite <- (rev_involutive l), H, rev_app_distr, rev_involutive. reflexivity.
  - intros [pre ->]. exists (rev pre). apply rev_app_distr.
Qed.

Section Decoder.
Context `{ZL : Zlib} `{CD : Codec} `{PF : Platform}.

#[local] Instance same_inflated_preorder : PreOrder same_inflated.
Proof.
  split; unfold same_inflated; [intro; reflexivity|intros a b c H1 H2; congruence].
Qed.

Ltac log_untouched := idtac; unfold same_inflated; reflexivity.

(** A binary frame is appended to the buffer, wherever the reader was
    waiting, and the test of the [while] follows. *)
Lemma _receive_json_binary pt b g :
  _receive_json pt (Binary b) g =
    _receive_json_loop (set_in_buffer (in_buffer g ++ b) g).
Proof. destruct pt; reflexivity. Qed.

(** Without the marker the reader goes back to waiting and nothing else
    has happened. *)
Lemma _receive_json_loop_waits g :
  endswith (in_buffer g) SYNC_FLUSH = false ->
  _receive_json_loop g = (Ok None, g).
Proof.
  intro H. unfold _receive_json_loop. rewrite bind_self, H. reflexivity.
Qed.

(** With the marker the whole buffer, and nothing but it, is given to
    the inflate context, once. *)
Lemma _receive_json_loop_inflates g :
  endswith (in_buffer g) SYNC_FLUSH = true ->
  inflated (snd (_receive_json_loop g)) = inflated g ++ [in_buffer g].
Proof.
  intro H. unfold _receive_json_loop. rewrite bind_self, H. cbn [negb].
  destruct (decompress (inflator g) (in_buffer g)) as [out ctx].
  rewrite bind_assign.
  assert (Hk : keeps same_inflated
                 (match out with
                  | Some raw =>
                      match decode_utf8 raw with
                      | Some msg =>
                          (if Z.ltb (max_persistent_buffer_size (cfg g))
                                (Z.of_nat (List.length (in_buffer g)))
                           then assign (set_in_buffer [])
                           else assign (set_in_buffer [])) ;;;
                          payload <- _receive_json_parse msg ;;
                          ret (Some payload)
                      | None => raise UnicodeDecodeError
                      end
                  | None => raise ZlibError
                  end)).
  { keeps_all log_untouched. }
  rewrite (Hk (set_inflator ctx (in_buffer g) g)). reflexivity.
Qed.

Lemma _process_events_inflated now message : keeps same_inflated (_process_events now message).
Proof. keeps_all log_untouched. Qed.

Lemma _process_events_dispatched now message op d g :
  subscript message "op" = Ok op ->
  py_eq_int op DISPATCH_OP = true ->
  subscript message "d" = Ok d ->
  dispatched (snd (_process_events now message g)) =
    dispatched g ++ [(message_get message "t", d)].
Proof.
  intros Hop Hzero Hd. unfold _process_events.
  rewrite Hop, bind_lift_Ok, Hd, bind_lift_Ok.
  unfold _process_events_branch. rewrite Hzero. unfold call_dispatch.
  destruct (is_None (message_get message "s")); cbn [negb];
    unfold bind, assign, ret, self, raise; cbn;
    match goal with |- context [dispatch ?c ?t ?d] => destruct (dispatch c t d) end;
    reflexivity.
Qed.

Lemma connection_one ph ev g :
  snd (connection ph [ev] g) = snd (on_event ph ev g).
Proof.
  cbn [connection]. unfold bind.
  destruct (on_event ph ev g) as [[ph'|e] g']; reflexivity.
Qed.

Lemma on_event_binary_waits now pt b g :
  endswith (in_buffer g ++ b) SYNC_FLUSH = false ->
  on_event (InEvents pt) (Recv (Binary b) now) g =
    (Ok (InEvents LoopRecv), set_in_buffer (in_buffer g ++ b) g).
Proof.
  intro H. unfold on_event, bind.
  rewrite _receive_json_binary, _receive_json_loop_waits; [reflexivity|exact H].
Qed.

(** Frames that do not complete a message only grow the buffer. *)
Lemma connection_accumulates now frames : forall pt g rest,
  (forall k, (k <= List.length frames)%nat -> k <> 0%nat ->
     endswith (in_buffer g ++ List.concat (firstn k frames)) SYNC_FLUSH = false) ->
  connection (InEvents pt) (binary_events now frames ++ rest) g =
    connection (InEvents (match frames with [] => pt | _ => LoopRecv end)) rest
      (match frames with
       | [] => g
       | _ => set_in_buffer (in_buffer g ++ List.concat frames) g
       end).
Proof.
  induction frames as [|b frames IH]; intros pt g rest Hno; [reflexivity|].
  cbn [binary_events map app connection].
  unfold bind at 1. rewrite on_event_binary_waits.
  2:{ specialize (Hno 1%nat). cbn in Hno. rewrite app_nil_r in Hno.
      apply Hno; [lia|discriminate]. }
  change (map (fun b0 => Recv (Binary b0) now) frames) with (binary_events now frames).
  rewrite IH.
  - destruct frames as [|b' frames']; [cbn; rewrite app_nil_r; reflexivity|].
    cbn [in_buffer set_in_buffer List.concat]. rewrite <- app_assoc. reflexivity.
  - intros k Hk Hk0. specialize (Hno (S k)). cbn in Hno |- *.
    rewrite <- app_assoc. apply Hno; [lia|discriminate].
Qed.

(** A message that inflates, decodes and parses to a JSON object is
    returned, with the buffer emptied. *)
Lemma _receive_json_loop_returns g raw ctx msg message :
  endswith (in_buffer g) SYNC_FLUSH = true ->
  decompress (inflator g) (in_buffer g) = (Some raw, ctx) ->
  decode_utf8 raw = Some msg ->
  json_loads msg = Some message ->
  is_dict message = true ->
  _receive_json_loop g =
    (Ok (Some message), set_in_buffer [] (set_inflator ctx (in_buffer g) g)).
Proof.
  intros Hend Hz Hutf Hjson Hdict.
  unfold _receive_json_loop. rewrite bind_self, Hend, Hz. cbn [negb].
  rewrite bind_assign, Hutf.
  unfold _receive_json_parse. rewrite Hjson, Hdict. cbn [negb].
  destruct (Z.ltb _ _); reflexivity.
Qed.

Lemma on_event_binary_inflated now pt b g :
  endswith (in_buffer g ++ b) SYNC_FLUSH = true ->
  inflated (snd (on_event (InEvents pt) (Recv (Binary b) now) g)) =
    inflated g ++ [in_buffer g ++ b].
Proof.
  intro H. unfold on_event, bind. rewrite _receive_json_binary.
  pose proof (_receive_json_loop_inflates (set_in_buffer (in_buffer g ++ b) g) H) as Hi.
  cbn [in_buffer inflated set_in_buffer] in Hi.
  destruct (_receive_json_loop (set_in_buffer (in_buffer g ++ b) g)) as [[[m|]|e] g3];
    cbn [snd] in *; try exact Hi.
  pose proof (_process_events_inflated now m g3) as Hp. unfold same_inflated in Hp.
  destruct (_process_events now m g3) as [[u|e] g4]; cbn [snd ret] in *;
    rewrite Hp; exact Hi.
Qed.

Lemma on_event_binary_dispatched now pt b g raw ctx msg message op d :
  endswith (in_buffer g ++ b) SYNC_FLUSH = true ->
  decompress (inflator g) (in_buffer g ++ b) = (Some raw, ctx) ->
  decode_utf8 raw = Some msg ->
  json_loads msg = Some message ->
  subscript message "op" = Ok op ->
  py_eq_int op DISPATCH_OP = true ->
  subscript message "d" = Ok d ->
  dispatched (snd (on_event (InEvents pt) (Recv (Binary b) now) g)) =
    dispatched g ++ [(message_get message "t", d)].
Proof.
  intros Hend Hz Hutf Hjson Hop Hzero Hd.
  assert (Hdict : is_dict message = true).
  { destruct message; cbn in Hop; try discriminate. reflexivity. }
  unfold on_event, bind. rewrite _receive_json_binary.
  rewrite (@_receive_json_loop_returns (set_in_buffer (in_buffer g ++ b) g)
             raw ctx msg message Hend Hz Hutf Hjson Hdict).
  pose proof (@_process_events_dispatched now message op d
                (set_in_buffer []
                   (set_inflator ctx (in_buffer g ++ b)
                      (set_in_buffer (in_buffer g ++ b) g))) Hop Hzero Hd) as Hp.
  cbn [in_buffer set_in_buffer] in *.
  destruct (_process_events now message _) as [[u|e] g4]; cbn [snd] in Hp |- *; exact Hp.
Qed.

(** C5.  A binary frame makes the decoder inflate exactly when the
    buffer with the frame appended ends in [00 00 FF FF], and what is
    inflated then is that whole buffer; otherwise the bytes are kept and
    the reader waits for more.  So a message split over several frames,
    of which only the last completes the marker, is inflated once, in
    one piece, and (when it is a DISPATCH) given to the sink once. *)
Theorem C5_sentinel_framing :
  (forall pt b g,
     let buf := in_buffer g ++ b in
     let r := _receive_json pt (Binary b) g in
     (inflated (snd r) = inflated g ++ [buf] <-> ends_in_marker buf) /\
     (~ ends_in_marker buf ->
      r = (Ok None, set_in_buffer buf g))) /\
  (forall now frames last g,
     (forall k, (k <= List.length frames)%nat -> k <> 0%nat ->
        ~ ends_in_marker (in_buffer g ++ List.concat (firstn k frames))) ->
     let whole := in_buffer g ++ List.concat (frames ++ [last]) in
     ends_in_marker whole ->
     let g' := snd (connection (InEvents FirstRecv)
                      (binary_events now (frames ++ [last])) g) in
     inflated g' = inflated g ++ [whole] /\
     (forall raw msg message op d,
        fst (decompress (inflator g) whole) = Some raw ->
        decode_utf8 raw = Some msg ->
        json_loads msg = Some message ->
        subscript message "op" = Ok op ->
        py_eq_int op DISPATCH_OP = true ->
        subscript message "d" = Ok d ->
        dispatched g' = dispatched g ++ [(message_get message "t", d)])).
Proof.
  split.
  - intros pt b g buf r. subst r. rewrite _receive_json_binary.
    destruct (endswith buf SYNC_FLUSH) eqn:E.
    + assert (Hm : ends_in_marker buf) by (apply endswith_spec; exact E).
      split; [|intro Hn; contradiction].
      split; [intros _; exact Hm|intros _].
      apply (_receive_json_loop_inflates (set_in_buffer buf g)). exact E.
    + assert (Hn : ~ ends_in_marker buf).
      { intro Hm. apply endswith_spec in Hm. congruence. }
      rewrite _receive_json_loop_waits by exact E. cbn [snd inflated set_in_buffer].
      split; [|reflexivity].
      split; [|intro Hm; contradiction].
      intro Heq. apply (f_equal (@List.length _)) in Heq.
      rewrite length_app in Heq. cbn in Heq. lia.
  - intros now frames last g Hno whole Hwhole g'.
    assert (Hno' : forall k, (k <= List.length frames)%nat -> k <> 0%nat ->
              endswith (in_buffer g ++ List.concat (firstn k frames)) SYNC_FLUSH = false).
    { intros k Hk Hk0. specialize (Hno k Hk Hk0).
      destruct (endswith _ SYNC_FLUSH) eqn:E; [|reflexivity].
      apply endswith_spec in E. contradiction. }
    apply endswith_spec in Hwhole. subst whole.
    rewrite concat_app in Hwhole |- *. cbn [List.concat] in Hwhole |- *.
    rewrite app_nil_r in Hwhole |- *.
    subst g'. unfold binary_events. rewrite map_app. cbn [map].
    fold (binary_events now frames).
    rewrite (connection_accumulates now frames FirstRecv g _ Hno'), connection_one.
    destruct frames as [|f frames].
    + cbn [List.concat app] in *. split.
      * apply on_event_binary_inflated. exact Hwhole.
      * intros raw msg message op d Hz.
        destruct (decompress (inflator g) (in_buffer g ++ last)) as [out ctx] eqn:Ez.
        cbn [fst] in Hz. subst out.
        apply on_event_binary_dispatched with (ctx := ctx); assumption.
    + remember (List.concat (f :: frames)) as body.
      rewrite app_assoc in Hwhole |- *. split.
      * apply (@on_event_binary_inflated now LoopRecv last
                 (set_in_buffer (in_buffer g ++ body) g)). exact Hwhole.
      * intros raw msg message op d Hz.
        destruct (decompress (inflator g) ((in_buffer g ++ body) ++ last))
          as [out ctx] eqn:Ez.
        cbn [fst] in Hz. subst out.
        apply (@on_event_binary_dispatched now LoopRecv last
                 (set_in_buffer (in_buffer g ++ body) g) raw ctx msg); assumption.
Qed.

End Decoder.

Lemma C5_sentinel_framing_witness :
  let g := connect (@__init__ stored_zlib quiet_config) in
  let g' := snd (@connection stored_zlib named_codec some_platform
                   (InEvents FirstRecv) three_frames g) in
  inflated g' = [stored "ready"] /\
  dispatched g' = [(JStr "READY", JObj [("session_id", JStr "abc")])].
Proof.
  pose proof (proj2 (@C5_sentinel_framing stored_zlib named_codec some_platform)
                1%float
                [list_byte_of_string "re"; list_byte_of_string "ady" ++ [x00; x00]]
                [xff; xff] (connect (__init__ quiet_config))) as H.
  cbv zeta in H.
  assert (Hno : forall k, (k <= 2)%nat -> k <> 0%nat ->
            ~ ends_in_marker
                ([] ++ List.concat
                   (firstn k [list_byte_of_string "re";
                              list_byte_of_string "ady" ++ [x00; x00]]))).
  { intros k Hk Hk0 Hm. apply endswith_spec in Hm.
    destruct k as [|[|[|k]]]; [contradiction|discriminate|discriminate|lia]. }
  assert (Hyes : ends_in_marker
            ([] ++ List.concat
               ([list_byte_of_string "re"; list_byte_of_string "ady" ++ [x00; x00]]
                ++ [[xff; xff]]))).
  { apply endswith_spec. reflexivity. }
  destruct (H Hno Hyes) as [Hi Hd].
  split; [exact Hi|].
  exact (Hd (list_byte_of_string "ready") "ready" ready_frame (JInt 0)
            (JObj [("session_id", JStr "abc")])
            eq_refl eq_refl eq_refl eq_refl eq_refl eq_refl).
Defined.

(* ------------------------------------------------------------------ *)
(** ** The send gate *)

Unset Implicit Arguments.

Lemma asleep_later now t until :
  (now <= t)%Q -> asleep t until = true -> asleep now until = true.
Proof.
  unfold asleep. rewrite !negb_true_iff. intros Hle H.
  destruct (Qle_bool until now) eqn:E; [|reflexivity].
  apply Qle_bool_iff in E.
  assert (Hc : Qle_bool until t = true) by (apply Qle_bool_iff; lra).
  congruence.
Qed.

Lemma filter_asleep_later now t (l : list Q) :
  (now <= t)%Q ->
  filter (asleep t) l = filter (asleep t) (filter (asleep now) l).
Proof.
  intro Hle. induction l as [|x l IH]; [reflexivity|]. cbn.
  destruct (asleep now x) eqn:En; cbn.
  - destruct (asleep t x); [f_equal|]; exact IH.
  - destruct (asleep t x) eqn:Et; [|exact IH].
    apply (asleep_later now t x Hle) in Et. congruence.
Qed.

Lemma filter_remove_at {A} (f : A -> bool) : forall i l x,
  nth_error l i = Some x -> f x = false ->
  filter f (remove_at i l) = filter f l.
Proof.
  induction i as [|i IH]; intros [|y l] x Hn Hf; cbn in *; try discriminate.
  - injection Hn as ->. rewrite Hf. reflexivity.
  - rewrite (IH l x Hn Hf). reflexivity.
Qed.

Lemma length_remove_at {A} : forall i (l : list A) x,
  nth_error l i = Some x -> S (List.length (remove_at i l)) = List.length l.
Proof.
  induction i as [|i IH]; intros [|y l] x Hn; cbn in *; try discriminate.
  - reflexivity.
  - rewrite (IH l x Hn). reflexivity.
Qed.

Lemma filter_length_le {A} (f : A -> bool) l :
  (List.length (filter f l) <= List.length l)%nat.
Proof.
  induction l as [|x l IH]; cbn; [lia|]. destruct (f x); cbn; lia.
Qed.

(** A frame written at or after [t] has a sleep that is not over at any
    time before [t + 60]. *)
Lemma window_frames_still_asleep t now (wire : list (Q * json)) :
  (now < t + RATELIMIT_COOLDOWN)%Q ->
  (List.length (filter (fun e => in_window t (fst e)) wire) <=
   List.length (filter (asleep now)
                  (map (fun e => (fst e + RATELIMIT_COOLDOWN)%Q) wire)))%nat.
Proof.
  intro Hnow. induction wire as [|[w p] wire IH]; cbn; [lia|].
  destruct (in_window t w) eqn:Ew.
  - assert (Ha : asleep now (w + RATELIMIT_COOLDOWN) = true).
    { unfold in_window in Ew. apply andb_true_iff in Ew as [Hw _].
      apply Qle_bool_iff in Hw. unfold asleep. apply negb_true_iff.
      destruct (Qle_bool (w + RATELIMIT_COOLDOWN) now) eqn:E; [|reflexivity].
      apply Qle_bool_iff in E. lra. }
    rewrite Ha. cbn. lia.
  - destruct (asleep now (w + RATELIMIT_COOLDOWN)); cbn; lia.
Qed.

Lemma gate_step_ok s a s' :
  gate_step s a = Some s' -> gate_ok s -> gate_ok s'.
Proof.
  unfold gate_ok. intros Hstep [Hcount Hsleep].
  destruct a as [p| |i|i|i|t]; cbn in Hstep.
  - injection Hstep as <-. cbn. auto.
  - destruct (gate_value s) as [|v] eqn:Ev; [discriminate|].
    destruct (gate_queued s) as [|p q]; [discriminate|].
    injection Hstep as <-. cbn. rewrite length_app. cbn. split; [lia|exact Hsleep].
  - destruct (nth_error (gate_sending s) i) as [p|] eqn:En; [|discriminate].
    injection Hstep as <-. cbn.
    pose proof (length_remove_at _ _ _ En). split; [lia|].
    assert (Ha : asleep (gate_now s) (gate_now s + RATELIMIT_COOLDOWN) = true).
    { unfold asleep. apply negb_true_iff.
      destruct (Qle_bool _ _) eqn:E; [|reflexivity].
      apply Qle_bool_iff in E. unfold RATELIMIT_COOLDOWN in E. lra. }
    rewrite Ha. f_equal. exact Hsleep.
  - destruct (nth_error (gate_sending s) i) as [p|] eqn:En; [|discriminate].
    injection Hstep as <-. cbn.
    pose proof (length_remove_at _ _ _ En). split; [lia|exact Hsleep].
  - destruct (nth_error (gate_cooling s) i) as [until|] eqn:En; [|discriminate].
    destruct (Qle_bool until (gate_now s)) eqn:Eu; [|discriminate].
    injection Hstep as <-. cbn.
    pose proof (length_remove_at _ _ _ En). split; [lia|].
    rewrite (filter_remove_at (asleep (gate_now s)) _ _ _ En); [exact Hsleep|].
    unfold asleep. rewrite Eu. reflexivity.
  - destruct (Qle_bool (gate_now s) t) eqn:Et; [|discriminate].
    injection Hstep as <-. cbn. split; [exact Hcount|].
    apply Qle_bool_iff in Et.
    rewrite (filter_asleep_later _ _ (gate_cooling s) Et).
    rewrite (filter_asleep_later _ _ (map _ (gate_wire s)) Et).
    rewrite Hsleep. reflexivity.
Qed.

Lemma gate_step_window s a s' :
  gate_step s a = Some s' -> gate_ok s ->
  (forall t, frames_in_window t s <= RATELIMIT_TOLERANCE)%nat ->
  forall t, (frames_in_window t s' <= RATELIMIT_TOLERANCE)%nat.
Proof.
  intros Hstep [Hcount Hsleep] Hwin t. specialize (Hwin t).
  unfold frames_in_window in *.
  destruct a as [p| |i|i|i|t']; cbn in Hstep.
  - injection Hstep as <-. exact Hwin.
  - destruct (gate_value s); [discriminate|].
    destruct (gate_queued s); [discriminate|].
    injection Hstep as <-. exact Hwin.
  - destruct (nth_error (gate_sending s) i) as [p|] eqn:En; [|discriminate].
    injection Hstep as <-. cbn.
    destruct (in_window t (gate_now s)) eqn:Ew; [|exact Hwin].
    cbn [List.length].
    assert (Hnow : (gate_now s < t + RATELIMIT_COOLDOWN)%Q).
    { unfold in_window in Ew. apply andb_true_iff in Ew as [_ Hw].
      apply negb_true_iff in Hw.
      destruct (Qlt_le_dec (gate_now s) (t + RATELIMIT_COOLDOWN)) as [Hl|Hl];
        [exact Hl|].
      apply Qle_bool_iff in Hl. congruence. }
    pose proof (window_frames_still_asleep t _ (gate_wire s) Hnow) as Hle.
    rewrite <- Hsleep in Hle.
    pose proof (filter_length_le (asleep (gate_now s)) (gate_cooling s)).
    pose proof (length_remove_at _ _ _ En). lia.
  - destruct (nth_error (gate_sending s) i); [|discriminate].
    injection Hstep as <-. exact Hwin.
  - destruct (nth_error (gate_cooling s) i); [|discriminate].
    destruct (Qle_bool _ _); [|discriminate].
    injection Hstep as <-. exact Hwin.
  - destruct (Qle_bool _ _); [|discriminate].
    injection Hstep as <-. exact Hwin.
Qed.

Lemma gate_run_window acts : forall s s',
  gate_run s acts = Some s' ->
  gate_ok s ->
  (forall t, frames_in_window t s <= RATELIMIT_TOLERANCE)%nat ->
  gate_ok s' /\ forall t, (frames_in_window t s' <= RATELIMIT_TOLERANCE)%nat.
Proof.
  induction acts as [|a acts IH]; intros s s' Hrun Hok Hwin; cbn in Hrun.
  - injection Hrun as <-. split; assumption.
  - destruct (gate_step s a) as [s1|] eqn:E; [|discriminate].
    apply (IH s1 s' Hrun).
    + exact (gate_step_ok _ _ _ E Hok).
    + exact (gate_step_window _ _ _ E Hok Hwin).
Qed.

(** C6.  However the tasks of [_send_json_now] are scheduled from the
    initial gate, the frames written during any 60 seconds number at
    most 119.  A frame is written by a task that holds one of the 119
    permits: the permits free, held while sending and held while
    sleeping always add up to 119, and the permit of every frame written
    less than 60 seconds ago is still held by its sleeping task. *)
Theorem C6_rate_budget (acts : list gate_action) (s : gate) :
  gate_run gate_init acts = Some s ->
  (forall t, frames_in_window t s <= 119)%nat /\
  (gate_value s + List.length (gate_sending s) + List.length (gate_cooling s) = 119)%nat /\
  filter (asleep (gate_now s)) (gate_cooling s) =
    filter (asleep (gate_now s)) (map (fun e => (fst e + 60)%Q) (gate_wire s)).
Proof.
  intro Hrun.
  destruct (gate_run_window acts gate_init s Hrun) as [[Hcount Hsleep] Hwin].
  - split; reflexivity.
  - intro t. cbn. lia.
  - split; [exact Hwin|split; [exact Hcount|exact Hsleep]].
Qed.

Lemma C6_rate_budget_witness :
  gate_run gate_init two_sends = Some after_two_sends /\
  (frames_in_window 0 after_two_sends <= 119)%nat.
Proof.
  assert (Hrun : gate_run gate_init two_sends = Some after_two_sends)
    by (vm_compute; reflexivity).
  split; [exact Hrun|].
  exact (proj1 (C6_rate_budget two_sends after_two_sends Hrun) 0%Q).
Defined.

(* ================================================================== *)
(** * Further properties of the module *)

(** ** The gateway URI *)



(** ** The send gate *)





(** ** The heartbeat supervisor *)

Lemma ltb_nan_l x : PrimFloat.ltb nan x = false.
Proof. rewrite ltb_spec. reflexivity. Qed.

Lemma ltb_nan_r x : PrimFloat.ltb x nan = false.
Proof.
  rewrite ltb_spec. unfold SFltb, SFcompare. change (Prim2SF nan) with S754_nan.
  destruct (Prim2SF x); reflexivity.
Qed.

Lemma sub_nan_l x : (nan - x)%float = nan.
Proof.
  rewrite <- (SF2Prim_Prim2SF (nan - x)), sub_spec.
  change (Prim2SF nan) with S754_nan. reflexivity.
Qed.

Lemma sub_nan_r x : (x - nan)%float = nan.
Proof.
  rewrite <- (SF2Prim_Prim2SF (x - nan)), sub_spec.
  change (Prim2SF nan) with S754_nan. unfold SF64sub, SFsub.
  destruct (Prim2SF x); reflexivity.
Qed.

Section Heartbeat.
Context `{ZL : Zlib}.

(** The check for a missing acknowledgement cannot fire while one of
    its three readings is still the constructor's NaN: not before the
    first HELLO, not before the first heartbeat, and not as long as no
    HEARTBEAT_ACK has ever arrived, however long ago the last heartbeat
    was sent. *)
Theorem no_zombie_before_first_ack (g : GatewayConnection) (now : float) :
  _last_ack_received g = nan \/ _last_heartbeat_sent g = nan \/
  _heartbeat_interval g = nan ->
  _keep_alive_check now g = (Ok tt, g).
Proof.
  intro Hnan. unfold _keep_alive_check. rewrite bind_self.
  assert (Hlt : PrimFloat.ltb (_last_ack_received g)
                  (_last_heartbeat_sent g - _heartbeat_interval g) = false).
  { destruct Hnan as [H|[H|H]]; rewrite H.
    - apply ltb_nan_l.
    - rewrite sub_nan_l. apply ltb_nan_r.
    - rewrite sub_nan_r. apply ltb_nan_r. }
  rewrite Hlt. reflexivity.
Qed.

(** When the shutdown event is not set, a completed wait sends a
    HEARTBEAT whose [d] is the last sequence as it is then, and notes
    the time of the send; so the heartbeat that follows a frame with a
    non-null sequence carries that sequence. *)
Theorem heartbeat_carries_last_sequence
  (g : GatewayConnection) (start sent_at finish : float) :
  _closed_event g = false ->
  let g' := snd (_keep_alive_wake start sent_at finish g) in
  fst (_keep_alive_wake start sent_at finish g) = Ok tt /\
  submitted g' = submitted g ++ [heartbeat_frame (_seq g)] /\
  _last_heartbeat_sent g' = sent_at /\
  _seq g' = _seq g.
Proof.
  intros Hopen g'. subst g'.
  unfold _keep_alive_wake. rewrite bind_self, Hopen.
  unfold _send_heartbeat, _send_json, bind, assign, self, ret. cbn.
  destruct (PrimFloat.ltb _ _); cbn; repeat split; reflexivity.
Qed.

End Heartbeat.

Lemma no_zombie_before_first_ack_witness :
  @_keep_alive_check stored_zlib 1000
    (set__last_heartbeat_sent 10 (set__heartbeat_interval 41.25
       (connect (__init__ quiet_config)))) =
  (Ok tt,
   set__last_heartbeat_sent 10 (set__heartbeat_interval 41.25
     (connect (__init__ quiet_config)))).
Proof.
  exact (@no_zombie_before_first_ack stored_zlib
           (set__last_heartbeat_sent 10 (set__heartbeat_interval 41.25
              (connect (__init__ quiet_config))))
           1000%float (or_introl eq_refl)).
Defined.

Lemma heartbeat_carries_last_sequence_witness :
  submitted (snd (@_keep_alive_wake stored_zlib 1 1 1
                    (set__seq (JInt 7) (connect (__init__ quiet_config))))) =
    [heartbeat_frame (JInt 7)].
Proof.
  exact (proj1 (proj2 (@heartbeat_carries_last_sequence stored_zlib
                         (set__seq (JInt 7) (connect (__init__ quiet_config)))
                         1%float 1%float 1%float eq_refl))).
Defined.

(** ** HELLO *)

Section Hello.
Context `{ZL : Zlib} `{CD : Codec} `{PF : Platform}.



End Hello.



(** ** The envelope and the opcodes *)

Section Envelope.
Context `{ZL : Zlib} `{CD : Codec} `{PF : Platform}.





End Envelope.





(** ** IDENTIFY *)

Section Identify.
Context `{ZL : Zlib} `{PF : Platform}.

(** The IDENTIFY frame: the token, [compress] false and the large
    threshold always; ["status"] exactly when an initial presence was
    given; ["shard"] exactly when both the shard id and the shard count
    were given; and the three properties, each replaced by ["redacted"]
    when the shard is incognito. *)
Theorem identify_payload_shape (g : GatewayConnection) :
  let c := cfg g in
  exists d,
    _identify g =
      (Ok tt,
       note_submitted (JObj [("op", JInt IDENTIFY_OP); ("d", JObj d)])
         (note_logged InfoIdentify g)) /\
    assoc "token" d = Some (JStr (token c)) /\
    assoc "compress" d = Some (JBool false) /\
    assoc "large_threshold" d = Some (JInt (large_threshold c)) /\
    assoc "status" d =
      (if is_None (initial_presence c) then None else Some (initial_presence c)) /\
    assoc "shard" d =
      match shard_id c, shard_count c with
      | Some i, Some n => Some (JArr [JInt i; JInt n])
      | _, _ => None
      end /\
    assoc "properties" d =
      Some (JObj
              [("$os", JStr (if incognito c then REDACTED else platform_system));
               ("$browser", JStr (if incognito c then REDACTED else _lib_ver));
               ("$device", JStr (if incognito c then REDACTED else _py_ver))]).
Proof.
  intro c. subst c. unfold _identify, _send_json.
  rewrite bind_assign, bind_self. cbn [cfg note_logged]. unfold assign.
  destruct (shard_id (cfg g)) as [i|], (shard_count (cfg g)) as [n|],
    (is_None (initial_presence (cfg g)));
    cbn [negb]; eexists; (split; [reflexivity|]); cbn; repeat split; reflexivity.
Qed.

End Identify.

(** ** The buffer of the decoder *)

Section Buffer.
Context `{ZL : Zlib} `{CD : Codec}.

#[local] Instance same_decoder_preorder : PreOrder same_decoder.
Proof.
  split; unfold same_decoder.
  - intro a. repeat split; reflexivity.
  - intros a b c (H1 & H2 & H3) (H4 & H5 & H6). repeat split; congruence.
Qed.

Lemma _receive_json_parse_decoder msg : keeps same_decoder (_receive_json_parse msg).
Proof. keeps_all ltac:(idtac; unfold same_decoder; repeat split; reflexivity). Qed.

(** When a binary frame completes the marker, the buffer is emptied as
    soon as its bytes are inflated and decoded, before the text is
    parsed, so it is empty even if the JSON is then refused; but when
    zlib or the UTF-8 decoder raise, the bytes stay in the buffer, in
    front of whatever the reader receives next. *)
Theorem buffer_emptied_only_after_decoding
  (pt : recv_point) (b : bytes) (g : GatewayConnection) :
  let buf := in_buffer g ++ b in
  let r := _receive_json pt (Binary b) g in
  endswith buf SYNC_FLUSH = true ->
  (forall ctx,
     decompress (inflator g) buf = (None, ctx) ->
     fst r = Raise ZlibError /\ in_buffer (snd r) = buf) /\
  (forall raw ctx,
     decompress (inflator g) buf = (Some raw, ctx) ->
     decode_utf8 raw = None ->
     fst r = Raise UnicodeDecodeError /\ in_buffer (snd r) = buf) /\
  (forall raw ctx msg,
     decompress (inflator g) buf = (Some raw, ctx) ->
     decode_utf8 raw = Some msg ->
     in_buffer (snd r) = [] /\ inflator (snd r) = ctx).
Proof.
  intros buf r Hend. subst r. rewrite _receive_json_binary.
  unfold _receive_json_loop. rewrite bind_self.
  cbn [in_buffer inflator set_in_buffer cfg]. fold buf. rewrite Hend. cbn [negb].
  split; [|split].
  - intros ctx Hz. rewrite Hz. split; reflexivity.
  - intros raw ctx Hz Hutf. rewrite Hz, bind_assign, Hutf. split; reflexivity.
  - intros raw ctx msg Hz Hutf. rewrite Hz, bind_assign, Hutf.
    assert (Hk : keeps same_decoder
                   (payload <- _receive_json_parse msg ;; ret (Some payload))).
    { refine (@keeps_bind _ _ _ _ _ _ _ (_receive_json_parse_decoder msg) _).
      intro payload. refine (@keeps_ret _ _ _ _ _). }
    destruct (Z.ltb _ _); rewrite bind_assign;
      match goal with
      | |- context [snd (bind _ _ ?st)] => destruct (Hk st) as (Hb & Hi & _)
      end;
      rewrite Hb, Hi; split; reflexivity.
Qed.

End Buffer.

Lemma buffer_emptied_only_after_decoding_witness :
  in_buffer (snd (@_receive_json stored_zlib named_codec LoopRecv
                    (Binary [xff; xff])
                    (set_in_buffer (list_byte_of_string "ready" ++ [x00; x00])
                       (connect (__init__ quiet_config))))) = [].
Proof.
  exact (proj1 (proj2 (proj2
    (@buffer_emptied_only_after_decoding stored_zlib named_codec LoopRecv
       [xff; xff]
       (set_in_buffer (list_byte_of_string "ready" ++ [x00; x00])
          (connect (__init__ quiet_config))) eq_refl))
    (list_byte_of_string "ready") [stored "ready"] "ready" eq_refl eq_refl)).
Defined.

(** ** What a connection can raise *)

Section Raises.
Context `{ZL : Zlib}.
Context (P : exn -> Prop).

Lemma raises_only_ret {A} (a : A) : raises_only P (ret a).
Proof. intros g e H. discriminate. Qed.

Lemma raises_only_raise {A} (e : exn) : P e -> raises_only P (@raise _ A e).
Proof. intros He g e' H. injection H as <-. exact He. Qed.

Lemma raises_only_self : raises_only P self.
Proof. intros g e H. discriminate. Qed.

Lemma raises_only_assign f : raises_only P (assign f).
Proof. intros g e H. discriminate. Qed.

Lemma raises_only_lift {A} (r : result A) :
  (forall e, r = Raise e -> P e) -> raises_only P (lift r).
Proof. intros Hr g e H. apply Hr. exact H. Qed.

Lemma raises_only_bind {A B} (c : M A) (k : A -> M B) :
  raises_only P c -> (forall a, raises_only P (k a)) -> raises_only P (bind c k).
Proof.
  intros Hc Hk g e. unfold bind. specialize (Hc g).
  destruct (c g) as [[a|e'] g']; cbn in *.
  - apply Hk.
  - intro H. injection H as <-. apply Hc. reflexivity.
Qed.

Lemma raises_only_aside {A B} (c : M A) (b : B) :
  raises_only P (fun g => (Ok b, snd (c g))).
Proof. intros g e H. discriminate. Qed.

End Raises.

(** One step towards [raises_only P c], following the shape of [c];
    [leaf] proves [P e] for a [raise e] and for the failures of a
    lookup. *)
Ltac raises_step leaf :=
  lazymatch goal with
  | |- raises_only _ (ret _) => refine (@raises_only_ret _ _ _ _)
  | |- raises_only _ (raise _) => refine (@raises_only_raise _ _ _ _ _); leaf
  | |- raises_only _ self => refine (@raises_only_self _ _)
  | |- raises_only _ (assign _) => refine (@raises_only_assign _ _ _)
  | |- raises_only _ (lift _) => refine (@raises_only_lift _ _ _ _ _); leaf
  | |- raises_only _ (bind _ _) =>
      refine (@raises_only_bind _ _ _ _ _ _ _ _); [ | intros ]
  | |- raises_only _ (fun g => (Ok ?b, snd (?c g))) =>
      refine (@raises_only_aside _ _ _ _ c b)
  | |- raises_only _ (match ?x with _ => _ end) => destruct x eqn:?
  | |- raises_only _ ?c => let h := head_of c in progress unfold h
  end.

Ltac raises_all leaf := repeat raises_step leaf.

Section Terminations.
Context `{ZL : Zlib} `{CD : Codec} `{PF : Platform}.

Lemma subscript_raises d k e : subscript d k = Raise e -> termination_code_ok e.
Proof.
  unfold subscript. destruct d; try (intro H; injection H as <-; exact I).
  destruct (assoc k fields); intro H; [discriminate|injection H as <-; exact I].
Qed.

Lemma div_1000_raises v e : div_1000 v = Raise e -> termination_code_ok e.
Proof.
  unfold div_1000. destruct v; try (intro H; injection H as <-; exact I);
    try discriminate.
  destruct (PrimFloat.eqb _ _); intro H; [injection H as <-; exact I|discriminate].
Qed.

Ltac code_known :=
  idtac;
  first [ solve [cbn; auto]
        | intros ? ?; eapply subscript_raises; eassumption
        | intros ? ?; eapply div_1000_raises; eassumption ].

Lemma on_event_termination_codes ph ev :
  raises_only termination_code_ok (on_event ph ev).
Proof. unfold on_event. destruct ev, ph; raises_all code_known. Qed.

(** Whatever the peer sends and whenever the heartbeat wakes, a typed
    termination that ends a connection carries one of four close codes:
    1002 or 1008 when it asks for a resume, 1003 or 1007 when it asks
    for a new session. *)
Theorem typed_terminations_carry_known_codes
  (ph : phase) (evs : list event) (g : GatewayConnection) (e : exn) :
  fst (connection ph evs g) = Raise e ->
  termination_code_ok e.
Proof.
  revert ph g. induction evs as [|ev rest IH]; intros ph g; cbn [connection].
  - discriminate.
  - unfold bind. pose proof (on_event_termination_codes ph ev g) as Hev.
    destruct (on_event ph ev g) as [[ph'|e'] g']; cbn in *.
    + apply IH.
    + intro H. injection H as <-. apply Hev. reflexivity.
Qed.

End Terminations.

Lemma typed_terminations_carry_known_codes_witness :
  termination_code_ok
    (GatewayRequestedReconnection 1003 (Literal "Reconnect opcode was received")).
Proof.
  exact (@typed_terminations_carry_known_codes stored_zlib named_codec some_platform
           (InEvents FirstRecv) [text "reconnect" 1]
           (connect (__init__ quiet_config)) _ eq_refl).
Defined.

(** ** The shutdown event *)

Section Shutdown.
Context `{ZL : Zlib} `{CD : Codec} `{PF : Platform}.

#[local] Instance still_closed_preorder : PreOrder still_closed.
Proof. split; unfold still_closed; [intros a H; exact H|intros a b c H1 H2 H; auto]. Qed.

#[local] Instance same_closed_preorder : PreOrder same_closed.
Proof.
  split; unfold same_closed; [intro; reflexivity|intros a b c H1 H2; congruence].
Qed.

Lemma on_event_still_closed ph ev : keeps still_closed (on_event ph ev).
Proof.
  unfold on_event.
  destruct ev, ph;
    keeps_all ltac:(idtac; unfold still_closed; cbn; intros;
                    first [assumption|reflexivity]).
Qed.

Lemma on_event_same_closed ph ev :
  is_close ev = false -> keeps same_closed (on_event ph ev).
Proof.
  unfold on_event. intro Hev.
  destruct ev, ph; try discriminate;
    keeps_all ltac:(idtac; unfold same_closed; reflexivity).
Qed.

Lemma connection_still_closed evs : forall ph, keeps still_closed (connection ph evs).
Proof.
  induction evs as [|ev rest IH]; intro ph; cbn [connection].
  - apply keeps_ret. exact _.
  - apply keeps_bind; [exact _|apply on_event_still_closed|intro ph'; apply IH].
Qed.

Lemma connection_same_closed evs :
  existsb is_close evs = false -> forall ph, keeps same_closed (connection ph evs).
Proof.
  induction evs as [|ev rest IH]; intros Hevs ph; cbn [connection].
  - apply keeps_ret. exact _.
  - cbn in Hevs. apply orb_false_iff in Hevs. destruct Hevs as [Hev Hrest].
    apply keeps_bind; [exact _|apply on_event_same_closed; exact Hev|].
    intro ph'. apply IH. exact Hrest.
Qed.

(** What [run] does between two connections leaves the event alone. *)
Lemma run_between_connections (conns : list (list event)) (g : GatewayConnection)
  (P : GatewayConnection -> Prop) :
  (forall g1 g2, _closed_event g2 = _closed_event g1 -> P g1 -> P g2) ->
  (forall evs, In evs conns ->
     forall g0, P g0 -> P (snd (connection (InHello FirstRecv) evs (connect g0)))) ->
  P g -> P (snd (run conns g)).
Proof.
  intros Hsame. revert g.
  induction conns as [|evs rest IH]; intros g Hconn Hg; cbn [run]; [exact Hg|].
  pose proof (Hconn evs (or_introl eq_refl) g Hg) as H1.
  assert (Hrest : forall evs', In evs' rest ->
            forall g0, P g0 -> P (snd (connection (InHello FirstRecv) evs' (connect g0))))
    by (intros evs' Hin; apply Hconn; right; exact Hin).
  assert (Hleave : forall g1, _closed_event (leave g1) = _closed_event g1)
    by (intro g1; unfold leave; destruct (ws g1); reflexivity).
  destruct (connection (InHello FirstRecv) evs (connect g)) as [[[]|e] g1];
    cbn [snd] in *.
  - apply IH; [exact Hrest|]. apply (Hsame g1); [apply Hleave|exact H1].
  - exact H1.
  - destruct e; cbn [snd];
      try (apply (Hsame g1); [apply Hleave|exact H1]);
      (apply IH; [exact Hrest|]; apply (Hsame g1); [cbn; apply Hleave|exact H1]).
Qed.

(** Only [close] sets the shutdown event, and nothing clears it: once
    set it is set after every further event and reconnection of [run],
    and over connections in which nobody calls [close] it is as it was,
    whatever the peer sends and however the connections end. *)
Theorem shutdown_event_only_set_by_close
  (conns : list (list event)) (g : GatewayConnection) :
  let g' := snd (run conns g) in
  (_closed_event g = true -> _closed_event g' = true) /\
  (forallb (fun evs => negb (existsb is_close evs)) conns = true ->
   _closed_event g' = _closed_event g).
Proof.
  intro g'. subst g'. split.
  - intro Hg.
    apply (run_between_connections conns g (fun g0 => _closed_event g0 = true));
      [intros g1 g2 H12 H1; congruence| |exact Hg].
    intros evs _ g0 H0.
    apply (connection_still_closed evs (InHello FirstRecv) (connect g0)). exact H0.
  - intro Hconns.
    apply (run_between_connections conns g
             (fun g0 => _closed_event g0 = _closed_event g));
      [intros g1 g2 H12 H1; congruence| |reflexivity].
    intros evs Hin g0 H0.
    rewrite forallb_forall in Hconns. specialize (Hconns evs Hin).
    apply negb_true_iff in Hconns.
    rewrite (connection_same_closed evs Hconns (InHello FirstRecv) (connect g0)).
    exact H0.
Qed.

End Shutdown.

Lemma shutdown_event_only_set_by_close_witness :
  _closed_event
    (snd (@run stored_zlib named_codec some_platform
            [[text "hello" 0; text "ready" 1; Wake 41.25 41.25 41.25 41.25];
             [text "hello" 50]]
            (__init__ quiet_config))) = false.
Proof.
  exact (proj2 (@shutdown_event_only_set_by_close stored_zlib named_codec some_platform
                  [[text "hello" 0; text "ready" 1; Wake 41.25 41.25 41.25 41.25];
                   [text "hello" 50]]
                  (__init__ quiet_config)) eq_refl).
Defined.

(** ** Dispatching *)

Section Dispatching.
Context `{ZL : Zlib} `{CD : Codec} `{PF : Platform}.

Lemma _process_events_dispatch_returns now message call g :
  dispatch_call message = Some call ->
  dispatch (cfg g) (fst call) (snd call) = None ->
  exists g',
    _process_events now message g = (Ok tt, g') /\
    dispatched g' = dispatched g ++ [call] /\
    cfg g' = cfg g.
Proof.
  unfold dispatch_call. intros Hcall Hsink.
  destruct (subscript message "op") as [op|] eqn:Hop; [|discriminate].
  destruct (subscript message "d") as [d|] eqn:Hd; [|discriminate].
  destruct (py_eq_int op DISPATCH_OP) eqn:Hzero; [|discriminate].
  injection Hcall as <-. cbn [fst snd] in Hsink.
  unfold _process_events. rewrite Hop, bind_lift_Ok, Hd, bind_lift_Ok.
  unfold _process_events_branch. rewrite Hzero. unfold call_dispatch.
  destruct (is_None (message_get message "s")); cbn [negb];
    unfold bind, assign, ret, self, raise; cbn; rewrite Hsink;
    eexists; repeat split; reflexivity.
Qed.

(** DISPATCH frames reach the sink in the order they arrive, each
    once: as long as the sink does not raise, a run of DISPATCH text
    frames leaves the reader waiting for the next frame, with exactly
    their [(t, d)] pairs added to the calls, in wire order. *)
Theorem dispatches_follow_wire_order
  (now : float) (texts : list string) (messages : list json)
  (g : GatewayConnection) :
  Forall2 (fun s message => json_loads s = Some message) texts messages ->
  (forall message, In message messages -> dispatch_call message <> None) ->
  (forall t d, dispatch (cfg g) t d = None) ->
  exists g' calls,
    connection (InEvents FirstRecv) (map (fun s => Recv (Text s) now) texts) g =
      (Ok Suspended, g') /\
    dispatched g' = dispatched g ++ calls /\
    map Some calls = map dispatch_call messages.
Proof.
  intro Hparse. revert g.
  induction Hparse as [|s message texts messages Hs _ IH]; intros g Hcalls Hsink.
  - exists g, []. cbn. rewrite app_nil_r. repeat split; reflexivity.
  - destruct (dispatch_call message) as [call|] eqn:Hcall.
    2:{ exfalso. apply (Hcalls message); [left; reflexivity|exact Hcall]. }
    destruct (@_process_events_dispatch_returns now message call g Hcall (Hsink _ _))
      as (g1 & Hrun & Hlog & Hcfg).
    assert (Hdict : is_dict message = true).
    { unfold dispatch_call in Hcall. destruct message; try discriminate. reflexivity. }
    destruct (IH g1) as (g' & calls & Hconn & Hlog' & Hmap).
    + intros m Hm. apply Hcalls. right. exact Hm.
    + intros t d. rewrite Hcfg. apply Hsink.
    + exists g', (call :: calls). split; [|split].
      * cbn [map connection on_event].
        unfold _receive_json, _receive_json_parse. rewrite Hs, Hdict. cbn [negb].
        rewrite !bind_ret. unfold bind at 1. unfold bind at 1.
        rewrite Hrun. cbn [ret]. exact Hconn.
      * rewrite Hlog', Hlog, <- app_assoc. reflexivity.
      * cbn [map]. rewrite Hcall, Hmap. reflexivity.
Qed.

End Dispatching.

Lemma dispatches_follow_wire_order_witness :
  exists (g' : @GatewayConnection stored_zlib) calls,
    @connection stored_zlib named_codec some_platform (InEvents FirstRecv)
      (map (fun s => Recv (Text s) 1) ["event5"; "event3"])
      (connect (@__init__ stored_zlib quiet_config)) = (Ok Suspended, g') /\
    dispatched g' = dispatched (connect (@__init__ stored_zlib quiet_config)) ++ calls /\
    map Some calls = map dispatch_call [event5_frame; event3_frame].
Proof.
  apply (@dispatches_follow_wire_order stored_zlib named_codec some_platform
           1%float ["event5"; "event3"] [event5_frame; event3_frame]).
  - repeat constructor.
  - intros message [<-|[<-|[]]]; discriminate.
  - reflexivity.
Defined.

(** ** Sessions across connections *)

Section Sessions.
Context `{ZL : Zlib} `{CD : Codec} `{PF : Platform}.

#[local] Instance same_session_state_preorder : PreOrder same_session_state.
Proof.
  split; unfold same_session_state.
  - intro a. repeat split; reflexivity.
  - intros a b c (H1 & H2 & H3) (H4 & H5 & H6). repeat split; congruence.
Qed.

#[local] Existing Instance same_submitted_preorder.
#[local] Existing Instance same_seq_preorder.
#[local] Existing Instance same_session_preorder.





End Sessions.



(** ** The measured latency *)

Section Latency.
Context `{ZL : Zlib}.

(** The latency that the shard shows is the time from the heartbeat
    sent last to the acknowledgement received last: after a heartbeat
    noted at [sent_at] and an acknowledgement handled at [now] it is
    [now - sent_at], and the acknowledgement itself submits nothing. *)
Theorem latency_is_ack_minus_last_heartbeat
  (g : GatewayConnection) (start sent_at finish now : float) :
  _closed_event g = false ->
  let g1 := snd (_keep_alive_wake start sent_at finish g) in
  let g2 := snd (_handle_ack now g1) in
  heartbeat_latency g2 = (now - sent_at)%float /\
  _last_ack_received g2 = now /\
  submitted g2 = submitted g1.
Proof.
  intros Hopen g1 g2.
  assert (Hsent : _last_heartbeat_sent g1 = sent_at).
  { subst g1. unfold _keep_alive_wake. rewrite bind_self, Hopen.
    unfold _send_heartbeat, _send_json, bind, assign, self, ret. cbn.
    destruct (PrimFloat.ltb _ _); reflexivity. }
  subst g2. unfold _handle_ack. rewrite bind_assign, bind_self.
  cbn. rewrite Hsent. repeat split; reflexivity.
Qed.

End Latency.

Lemma latency_is_ack_minus_last_heartbeat_witness :
  heartbeat_latency
    (snd (@_handle_ack stored_zlib 41.5
            (snd (_keep_alive_wake 41.25 41.25 41.25
                    (connect (__init__ quiet_config)))))) = 0.25%float.
Proof.
  exact (proj1 (@latency_is_ack_minus_last_heartbeat stored_zlib
                  (connect (__init__ quiet_config))
                  41.25%float 41.25%float 41.25%float 41.5%float eq_refl)).
Defined.
